(** * RNAcommender: batch construction and the factorization model

    A shallow embedding of [rnacommender/data.py] (the train and predict
    dataset builders) and of [rnacommender/model.py] (the bilinear
    latent-factor model), with the properties stated about them.

    Conventions.
    - The sources are Python 2 modules (they import [print_function]
      from [__future__] but not [division]), so [/] between two ints is
      floor division.
    - [data.py] only copies and tests float cells; they are binary64
      values ([config.floatX]) and are modelled by primitive floats.
    - [model.py] computes with floats through theano; its arithmetic is
      read over the real numbers, so statements about it are statements
      about the exact formulas and say nothing about rounding.
    - pandas, numpy and theano calls are modelled by their documented
      contract; frames carry unique labels. *)

From Stdlib Require Import ZArith List Floats Permutation Lia.
From Stdlib Require Import Reals Lra ClassicalEpsilon.
From stdpp Require Import base list strings.

(** ** Exceptions and fallible results *)

Inductive exn : Type :=
| ZeroDivisionError
| KeyError (key : string)
| IndexError
| AssertionError.

Inductive result (A : Type) : Type :=
| Ok (a : A)
| Raise (e : exn).
Arguments Ok {A} a.
Arguments Raise {A} e.

#[global] Instance result_ret : MRet result := fun _ a => Ok a.
#[global] Instance result_bind : MBind result := fun _ _ f m =>
  match m with
  | Ok a => f a
  | Raise e => Raise e
  end.

Definition is_ok {A} (m : result A) : Prop := exists a, m = Ok a.

(** Left-to-right loop whose body may raise. *)
Fixpoint foldM {A B} (f : A -> B -> result A) (a : A) (l : list B)
  : result A :=
  match l with
  | [] => Ok a
  | x :: l' => a' ← f a x; foldM f a' l'
  end.

(** Gathering loop whose body may raise. *)
Fixpoint mapM' {A B} (f : A -> result B) (l : list A) : result (list B) :=
  match l with
  | [] => Ok []
  | x :: l' => y ← f x; ys ← mapM' f l'; Ok (y :: ys)
  end.

Module Data.

(** ** pandas frames

    A frame is a rectangular table of floats addressed by a column label
    and a row label; [df_columns] and [df_index] list the labels in
    order.  Feature frames have one column per entity and one row per
    attribute; the interaction frame has proteins as columns and RNAs as
    rows. *)

Record DataFrame : Type := mkDataFrame {
  df_index : list string;
  df_columns : list string;
  df_cell : string -> string -> float   (* column label, then row label *)
}.

Record Series : Type := mkSeries {
  s_index : list string;
  s_cell : string -> float
}.

Definition s_values (s : Series) : list float := map (s_cell s) (s_index s).

(** [df[c]] *)
Definition df_getitem (df : DataFrame) (c : string) : result Series :=
  if bool_decide (c ∈ df_columns df)
  then Ok (mkSeries (df_index df) (df_cell df c))
  else Raise (KeyError c).

(** [s[k]] *)
Definition s_getitem (s : Series) (k : string) : result float :=
  if bool_decide (k ∈ s_index s) then Ok (s_cell s k) else Raise (KeyError k).

(** [df.loc[r]] *)
Definition df_loc (df : DataFrame) (r : string) : result Series :=
  if bool_decide (r ∈ df_index df)
  then Ok (mkSeries (df_columns df) (fun c => df_cell df c r))
  else Raise (KeyError r).

(** [s.count()]: the number of cells that are not NaN. *)
Definition s_count (s : Series) : nat :=
  length (filter (fun v => is_nan v = false) (s_values s)).

(** [df[cs]] with a list of labels: the frame restricted to those
    columns, in the order asked. *)
Definition df_select (df : DataFrame) (cs : list string) : result DataFrame :=
  _ ← mapM' (df_getitem df) cs;
  Ok (mkDataFrame (df_index df) cs (df_cell df)).

(** [df.shape] *)
Definition shape0 (df : DataFrame) : nat := length (df_index df).
Definition shape1 (df : DataFrame) : nat := length (df_columns df).

(** ** numpy arrays *)

Abbreviation row := (list float).
Abbreviation matrix := (list (list float)).

(** One training batch: protein rows, RNA rows, labels. *)
Abbreviation Batch := (list (list float) * list (list float) * list float)%type.

(** [np.zeros((k, d))] *)
Definition np_zeros (k d : nat) : matrix := replicate k (replicate d 0%float).

(** [a[i] = v] *)
Definition setitem (a : matrix) (i : nat) (v : row) : result matrix :=
  if decide (i < length a) then Ok (<[i := v]> a) else Raise IndexError.

(** [a[perm]] *)
Definition take (a : matrix) (perm : list nat) : result matrix :=
  mapM' (fun k => match a !! k with
                  | Some v => Ok v
                  | None => Raise IndexError
                  end) perm.

(** [a.flatten()] *)
Definition flatten (a : matrix) : list float := concat a.

(** The global generator of [np.random]. *)
Class NumpyRandom : Type := {
  rng_state : Type;
  (** [np.random.seed(s)] *)
  np_seed : Z -> rng_state;
  (** [np.random.permutation(range(k))] *)
  np_permutation : nat -> rng_state -> list nat * rng_state;
  (** [np.random.shuffle(l)] *)
  np_shuffle : forall {A : Type}, list A -> rng_state -> list A * rng_state;
  np_permutation_perm : forall k g,
    Permutation (np_permutation k g).1 (seq 0 k);
  np_shuffle_perm : forall (A : Type) (l : list A) g,
    Permutation (np_shuffle l g).1 l
}.

Section Load.
Context `{NumpyRandom}.

(** ** [TrainDataset] *)

Record TrainDataset : Type := mkTrainDataset {
  Fp : DataFrame;
  Fr : DataFrame;
  Y : DataFrame;
  seed : Z
}.

(** The constructor, given the three frames read from disk: it stores them
    when the protein and RNA counts agree with the interaction frame. *)
Definition TrainDataset_init (fp fr y : DataFrame) (seed : Z)
  : result TrainDataset :=
  if bool_decide (shape1 fp = shape1 y) && bool_decide (shape1 fr = shape0 y)
  then Ok (mkTrainDataset fp fr y seed)
  else Raise AssertionError.

(** The arrays and counters that the loop over the proteins updates. *)
Record fill_state : Type := mkFill {
  f_p : matrix;
  f_r : matrix;
  f_i : matrix;
  f_index : nat;
  f_pos : nat;
  f_neg : nat
}.

(** Body of [for protein in self.Y.columns]. *)
Definition fill_protein (ds : TrainDataset) (rna : string)
    (st : fill_state) (protein : string) : result fill_state :=
  ycol ← df_getitem (Y ds) protein;
  y ← s_getitem ycol rna;
  if is_nan y then Ok st
  else
    fp ← df_getitem (Fp ds) protein;
    p' ← setitem (f_p st) (f_index st) (s_values fp);
    fr ← df_getitem (Fr ds) rna;
    r' ← setitem (f_r st) (f_index st) (s_values fr);
    i' ← setitem (f_i st) (f_index st) [y];
    if (0 <? y)%float
    then Ok (mkFill p' r' i' (S (f_index st)) (S (f_pos st)) (f_neg st))
    else Ok (mkFill p' r' i' (S (f_index st)) (f_pos st) (S (f_neg st))).

(** The variables of [load] that live across the loop over the RNAs. *)
Record load_state : Type := mkLoad {
  dataset : list Batch;
  num_pos : nat;
  num_neg : nat;
  num_batches : nat;
  progress : nat;
  rng : rng_state
}.

(** [n % (len(self.Y.index) / 10) == 0] *)
Definition progress_due (n len : nat) : result bool :=
  let step := len / 10 in
  if decide (step = 0) then Raise ZeroDivisionError
  else Ok (n mod step =? 0).

(** Lines 170-195: the batch of one RNA, appended to the dataset. *)
Definition make_batch (ds : TrainDataset) (st : load_state) (rna : string)
  : result load_state :=
  yrow ← df_loc (Y ds) rna;
  let num_examples := s_count yrow in
  let p := np_zeros num_examples (shape0 (Fp ds)) in
  let r := np_zeros num_examples (shape0 (Fr ds)) in
  let i := np_zeros num_examples 1 in
  fs ← foldM (fill_protein ds rna)
         (mkFill p r i 0 (num_pos st) (num_neg st)) (df_columns (Y ds));
  let '(perm, g) := np_permutation num_examples (rng st) in
  p ← take (f_p fs) perm;
  r ← take (f_r fs) perm;
  i ← take (f_i fs) perm;
  Ok (mkLoad (dataset st ++ [(p, r, flatten i)]) (f_pos fs) (f_neg fs)
        (S (num_batches st)) (progress st) g).

(** Body of [for (n, rna) in enumerate(self.Y.index)]. *)
Definition load_step (ds : TrainDataset) (st : load_state)
    (nrna : nat * string) : result load_state :=
  due ← progress_due (fst nrna) (length (df_index (Y ds)));
  let st' := if due : bool
             then mkLoad (dataset st) (num_pos st) (num_neg st)
                    (num_batches st) (progress st + 10) (rng st)
             else st in
  make_batch ds st' (snd nrna).

Definition enumerate {A} (l : list A) : list (nat * A) :=
  zip (seq 0 (length l)) l.

(** What [load] leaves: the returned list, the counts it reports, and the
    state of the global generator. *)
Record loaded : Type := mkLoaded {
  l_dataset : list Batch;
  l_num_pos : nat;
  l_num_neg : nat;
  l_num_batches : nat;
  l_rng : rng_state
}.

(** [TrainDataset.load], run with the global generator in state [g]. *)
Definition load (ds : TrainDataset) (g : rng_state) : result loaded :=
  st ← foldM (load_step ds) (mkLoad [] 0 0 0 0 g)
        (enumerate (df_index (Y ds)));
  let '(shuffled, g') := np_shuffle (dataset st) (np_seed (seed ds)) in
  Ok (mkLoaded shuffled (num_pos st) (num_neg st) (num_batches st) g').

End Load.

(** ** [PredictDataset] *)

Record PredictDataset : Type := mkPredictDataset {
  pFp : DataFrame;
  pFr : DataFrame;
  to_predict : option (list string)
}.

(** The constructor, given the two feature frames read from disk: with a
    restriction list the protein frame is cut down to the listed columns. *)
Definition PredictDataset_init (fp fr : DataFrame)
    (to_predict : option (list string)) : result PredictDataset :=
  match to_predict with
  | None => Ok (mkPredictDataset fp fr None)
  | Some cs => fp' ← df_select fp cs; Ok (mkPredictDataset fp' fr (Some cs))
  end.

(** The arrays, name lists and counter that the two nested loops update. *)
Record cross_state : Type := mkCross {
  c_p : matrix;
  c_p_names : list string;
  c_r : matrix;
  c_r_names : list string;
  c_index : nat
}.

(** Body of [for rna in self.Fr.columns]. *)
Definition cross_rna (ds : PredictDataset) (protein : string)
    (st : cross_state) (rna : string) : result cross_state :=
  fp ← df_getitem (pFp ds) protein;
  p' ← setitem (c_p st) (c_index st) (s_values fp);
  fr ← df_getitem (pFr ds) rna;
  r' ← setitem (c_r st) (c_index st) (s_values fr);
  Ok (mkCross p' (c_p_names st ++ [protein]) r' (c_r_names st ++ [rna])
        (S (c_index st))).

(** Body of [for protein in self.Fp.columns]. *)
Definition cross_protein (ds : PredictDataset) (st : cross_state)
    (protein : string) : result cross_state :=
  foldM (cross_rna ds protein) st (df_columns (pFr ds)).

(** [PredictDataset.load]: [(p, p_names, r, r_names)]. *)
Definition predict_load (ds : PredictDataset)
  : result (matrix * list string * matrix * list string) :=
  let num_examples := shape1 (pFp ds) * shape1 (pFr ds) in
  let p := np_zeros num_examples (shape0 (pFp ds)) in
  let r := np_zeros num_examples (shape0 (pFr ds)) in
  st ← foldM (cross_protein ds) (mkCross p [] r [] 0) (df_columns (pFp ds));
  Ok (c_p st, c_p_names st, c_r st, c_r_names st).

(** Frames are keyed by identifiers: no label occurs twice. *)
Definition unique_labels (df : DataFrame) : Prop :=
  NoDup (df_index df) /\ NoDup (df_columns df).

(** The feature column of an entity, as the row copied into a batch. *)
Definition features (df : DataFrame) (c : string) : row :=
  map (df_cell df c) (df_index df).

(** ** Notions used to state what the loaders return *)

(** Every (protein, RNA) pair, protein-major and RNA-minor. *)
Definition cross_join (ps rs : list string) : list (string * string) :=
  flat_map (fun protein => map (fun rna => (protein, rna)) rs) ps.

(** The proteins with a label for [rna], in column order. *)
Definition labelled_in (ds : TrainDataset) (rna : string) (cs : list string)
  : list string :=
  filter (fun c => is_nan (df_cell (Y ds) c rna) = false) cs.

Definition labelled (ds : TrainDataset) (rna : string) : list string :=
  labelled_in ds rna (df_columns (Y ds)).

(** How many of the proteins [cs] have a label above zero for [rna]. *)
Definition positives (ds : TrainDataset) (rna : string) (cs : list string)
  : nat :=
  length (filter (fun c => (0 <? df_cell (Y ds) c rna)%float = true) cs).

Definition negatives (ds : TrainDataset) (rna : string) (cs : list string)
  : nat :=
  length (filter (fun c => (0 <? df_cell (Y ds) c rna)%float = false) cs).

(** The labels [cs] read in the order given by the positions [perm]. *)
Definition reorder (cs : list string) (perm : list nat) : list string :=
  map (fun k => nth k cs ""%string) perm.

(** The batch of [rna] whose rows are the proteins [order], in that order. *)
Definition batch_of_order (ds : TrainDataset) (rna : string)
    (order : list string) : Batch :=
  (map (features (Fp ds)) order,
   map (fun _ => features (Fr ds) rna) order,
   map (fun c => df_cell (Y ds) c rna) order).

(** [b] holds one row per labelled protein of [rna], in some order. *)
Definition batch_covers (ds : TrainDataset) (rna : string) (b : Batch)
  : Prop :=
  exists order, Permutation order (labelled ds rna)
                /\ b = batch_of_order ds rna order.


(** Sum of [f] over the RNAs [rs]. *)
Definition total (f : string -> nat) (rs : list string) : nat :=
  foldr (fun r acc => f r + acc) 0 rs.

(** ** Which lookup fails *)

(** The id whose feature lookup raises while the batch of [rna] is filled
    from the columns [cs]: the first labelled protein without a column in
    [Fp], or [rna] itself when that protein has one and [rna] has no
    column in [Fr]. *)
Fixpoint missing_in (ds : TrainDataset) (rna : string) (cs : list string)
  : option string :=
  match cs with
  | [] => None
  | c :: cs' =>
      if is_nan (df_cell (Y ds) c rna) then missing_in ds rna cs'
      else if bool_decide (c ∈ df_columns (Fp ds))
           then if bool_decide (rna ∈ df_columns (Fr ds))
                then missing_in ds rna cs'
                else Some rna
           else Some c
  end.

(** The same over the RNAs [rnas], in order. *)
Fixpoint missing_key (ds : TrainDataset) (rnas : list string) : option string :=
  match rnas with
  | [] => None
  | r :: rnas' =>
      match missing_in ds r (df_columns (Y ds)) with
      | Some k => Some k
      | None => missing_key ds rnas'
      end
  end.

(** ** Counting over a returned list of batches *)

(** The labels of a batch. *)
Definition batch_labels (b : Batch) : list float := snd b.

(** How many labels of the batches [bs] pass the test [t]. *)
Definition count_labels (t : float -> bool) (bs : list Batch) : nat :=
  foldr (fun b acc => length (filter (fun y => t y = true) (batch_labels b)) + acc)
    0 bs.

(** How many rows the batches [bs] hold. *)
Definition count_rows (bs : list Batch) : nat :=
  foldr (fun b acc => length (batch_labels b) + acc) 0 bs.

(** ** Example frames

    Two proteins with three attributes, RNAs with two attributes, and
    interaction frames with ten, one and no RNA. *)

Definition ex_Fp : DataFrame :=
  mkDataFrame ["a1"; "a2"; "a3"] ["P1"; "P2"]
    (fun c r =>
       if String.eqb c "P1"
       then (if String.eqb r "a1" then 1 else if String.eqb r "a2" then 2 else 3)
       else (if String.eqb r "a1" then 4 else if String.eqb r "a2" then 5 else 6))%float.

Definition ex_rna_cell (c r : string) : float :=
  (if String.eqb r "b1" then 0.5
   else if String.eqb c "R1" then 7 else 8)%float.

Definition ex_Fr3 : DataFrame :=
  mkDataFrame ["b1"; "b2"] ["R1"; "R2"; "R3"] ex_rna_cell.

Definition ex_Fr10 : DataFrame :=
  mkDataFrame ["b1"; "b2"]
    ["R0"; "R1"; "R2"; "R3"; "R4"; "R5"; "R6"; "R7"; "R8"; "R9"] ex_rna_cell.

(** [R0] has no label at all, [R1] lacks the label of [P2]; elsewhere
    [P1] interacts and [P2] does not. *)
Definition ex_Y10 : DataFrame :=
  mkDataFrame
    ["R0"; "R1"; "R2"; "R3"; "R4"; "R5"; "R6"; "R7"; "R8"; "R9"]
    ["P1"; "P2"]
    (fun c r =>
       if String.eqb r "R0" then nan
       else if String.eqb c "P1" then 1
       else if String.eqb r "R1" then nan else 0)%float.

Definition ex_train : TrainDataset := mkTrainDataset ex_Fp ex_Fr10 ex_Y10 1234.

(** One RNA, one protein, one label. *)
Definition ex_Fp1 : DataFrame :=
  mkDataFrame ["a1"; "a2"; "a3"] ["P1"] (df_cell ex_Fp).
Definition ex_Fr1 : DataFrame := mkDataFrame ["b1"; "b2"] ["R1"] ex_rna_cell.
Definition ex_Y1 : DataFrame :=
  mkDataFrame ["R1"] ["P1"] (fun _ _ => 1%float).
Definition ex_train1 : TrainDataset := mkTrainDataset ex_Fp1 ex_Fr1 ex_Y1 1234.

(** No RNA at all. *)
Definition ex_Fr0 : DataFrame := mkDataFrame ["b1"; "b2"] [] ex_rna_cell.
Definition ex_Y0 : DataFrame := mkDataFrame [] ["P1"; "P2"] (fun _ _ => nan).
Definition ex_train0 : TrainDataset := mkTrainDataset ex_Fp ex_Fr0 ex_Y0 1234.


(** ** A small deterministic generator, to run the loaders on examples:
    every permutation is the reversal. *)
#[local] Program Instance reversing_random : NumpyRandom := {|
  rng_state := Z;
  np_seed := fun s => s;
  np_permutation := fun k g => (rev (seq 0 k), Z.succ g);
  np_shuffle := fun A l g => (rev l, Z.succ g)
|}.
Next Obligation. intros; simpl; symmetry; apply Permutation_rev. Qed.
Next Obligation. intros; simpl; symmetry; apply Permutation_rev. Qed.

(** What [load] returns for [ex_train] with the reversing generator: the
    batches of [R9] down to [R0], each with its rows reversed. *)
Definition ex_loaded : loaded (H := reversing_random) :=
  mkLoaded (H := reversing_random)
    (replicate 8
       ([[4; 5; 6]; [1; 2; 3]], [[0.5; 8]; [0.5; 8]], [0; 1])%float
     ++ [([[1; 2; 3]], [[0.5; 7]], [1])%float; ([], [], [])])
    9 8 10 1235%Z.

End Data.

Module Model.

Local Open Scope R_scope.

(** ** theano tensors and the operations the model uses

    A vector is the list of its entries and a matrix the list of its
    rows; a matrix without rows has no width of its own, so the shapes
    [n], [m], [sp], [sr] and the batch size are meant positive.  Where
    the code would divide by zero (the mean over an empty batch) the
    formulas below are kept as written. *)

Abbreviation vec := (list R).
Abbreviation mat := (list (list R)).

(** [T.nnet.sigmoid] *)
Definition sigmoid (x : R) : R := 1 / (1 + exp (- x)).

(** [x.sum()] of a vector *)
Definition T_sum (v : vec) : R := foldr Rplus 0 v.

Definition width (M : mat) : nat :=
  match M with
  | [] => 0%nat
  | r :: _ => length r
  end.

(** [M.T] *)
Definition transpose (M : mat) : mat :=
  map (fun j => map (fun r => nth j r 0) M) (seq 0 (width M)).

(** [T.dot(X, W)]: row [e], column [j] is the inner product of row [e] of
    [X] with column [j] of [W]. *)
Definition T_dot (X W : mat) : mat :=
  map (fun x => map (fun w => T_sum (zip_with Rmult x w)) (transpose W)) X.

(** [M + b], the vector [b] broadcast over the rows of [M] *)
Definition add_row (M : mat) (b : vec) : mat :=
  map (fun r => zip_with Rplus r b) M.

(** [M * N], elementwise *)
Definition mul_elem (M N : mat) : mat := zip_with (zip_with Rmult) M N.

(** [T.sum(M, axis=1)] *)
Definition sum_axis1 (M : mat) : vec := map T_sum M.

(** [v.mean()] *)
Definition mean (v : vec) : R := T_sum v / INR (length v).

(** [x.norm(2)], [x] given by the list of its entries ([x.flatten()]) *)
Definition norm2 (entries : vec) : R := sqrt (T_sum (map Rsqr entries)).

(** ** The shared variables and the symbolic graph of [Model.__init__] *)

Record Params : Type := mkParams {
  Ap : mat;   (* sp x n *)
  bp : vec;   (* sp *)
  Ar : mat;   (* sr x m *)
  br : vec;   (* sr *)
  B : mat     (* sp x sr *)
}.

(** Latent space for proteins *)
Definition latent_P (th : Params) (Fp : mat) : mat :=
  map (map sigmoid) (add_row (T_dot Fp (transpose (Ap th))) (bp th)).

(** Latent space for RNAs *)
Definition latent_R (th : Params) (Fr : mat) : mat :=
  map (map sigmoid) (add_row (T_dot Fr (transpose (Ar th))) (br th)).

(** Predicted output *)
Definition y_hat (th : Params) (Fp Fr : mat) : vec :=
  map sigmoid
    (sum_axis1 (mul_elem (T_dot (latent_P th Fp) (B th)) (latent_R th Fr))).

Definition regularization (th : Params) : R :=
  let norm_proteins := norm2 (concat (Ap th)) + norm2 (bp th) in
  let norm_rnas := norm2 (concat (Ar th)) + norm2 (br th) in
  let norm_B := norm2 (concat (B th)) in
  let num_proteins := (length (concat (Ap th)) + length (bp th))%nat in
  let num_rnas := (length (concat (Ar th)) + length (br th))%nat in
  let num_B := length (concat (B th)) in
  (norm_proteins / INR num_proteins + norm_rnas / INR num_rnas
   + norm_B / INR num_B) / 3.

(** mean squared error *)
Definition cost_ (th : Params) (Fp Fr : mat) (y : vec) : R :=
  mean (map Rsqr (zip_with Rminus y (y_hat th Fp Fr))).

Definition cost (lambda_reg : R) (th : Params) (Fp Fr : mat) (y : vec) : R :=
  cost_ th Fp Fr y + lambda_reg * regularization th.

(** *** [T.grad]

    Differentiation is theano's; what is used of it is that it returns
    the derivative wherever there is one. *)
Class Autodiff : Type := {
  deriv : (R -> R) -> R -> R;
  deriv_correct : forall f x l, derivable_pt_lim f x l -> deriv f x = l
}.

(** The entries of the five tensors. *)
Inductive coord : Type :=
| cAp (i j : nat)
| cbp (i : nat)
| cAr (i j : nat)
| cbr (i : nat)
| cB (i j : nat).


Definition mat_set (M : mat) (i j : nat) (t : R) : mat :=
  alter (fun r => <[j := t]> r) i M.


Definition set (th : Params) (c : coord) (t : R) : Params :=
  match c with
  | cAp i j => mkParams (mat_set (Ap th) i j t) (bp th) (Ar th) (br th) (B th)
  | cbp i => mkParams (Ap th) (<[i := t]> (bp th)) (Ar th) (br th) (B th)
  | cAr i j => mkParams (Ap th) (bp th) (mat_set (Ar th) i j t) (br th) (B th)
  | cbr i => mkParams (Ap th) (bp th) (Ar th) (<[i := t]> (br th)) (B th)
  | cB i j => mkParams (Ap th) (bp th) (Ar th) (br th) (mat_set (B th) i j t)
  end.

Section Graph.
Context `{Autodiff}.

(** The partial derivative of [f] in the entry [c], taken at [th]. *)
Definition partial (f : Params -> R) (th : Params) (c : coord) (x : R) : R :=
  deriv (fun t => f (set th c t)) x.

(** [T.grad(f, [Ap, bp, Ar, br, B])]: one tensor of partial derivatives
    per parameter tensor, of the same shape. *)
Definition T_grad (f : Params -> R) (th : Params) : Params :=
  mkParams
    (imap (fun i => imap (fun j => partial f th (cAp i j))) (Ap th))
    (imap (fun i => partial f th (cbp i)) (bp th))
    (imap (fun i => imap (fun j => partial f th (cAr i j))) (Ar th))
    (imap (fun i => partial f th (cbr i)) (br th))
    (imap (fun i => imap (fun j => partial f th (cB i j))) (B th)).

(** [x - learning_rate * g] on vectors and matrices *)
Definition sgd_vec (learning_rate : R) (x g : vec) : vec :=
  zip_with Rminus x (map (Rmult learning_rate) g).

Definition sgd_mat (learning_rate : R) (x g : mat) : mat :=
  zip_with (sgd_vec learning_rate) x g.

(** The [updates] pairs: every shared variable with its new value. *)
Definition updates (learning_rate lambda_reg : R) (th : Params)
    (Fp Fr : mat) (y : vec) : Params :=
  let g := T_grad (fun th' => cost lambda_reg th' Fp Fr y) th in
  mkParams (sgd_mat learning_rate (Ap th) (Ap g))
           (sgd_vec learning_rate (bp th) (bp g))
           (sgd_mat learning_rate (Ar th) (Ar g))
           (sgd_vec learning_rate (br th) (br g))
           (sgd_mat learning_rate (B th) (B g)).

(** [theano.function(inputs, outputs, updates)]: a call computes the
    outputs from the inputs and the current shared variables, then stores
    the update values, themselves computed from the values before the
    call; without [updates] the shared variables are left alone. *)
Definition function {I O : Type} (outputs : Params -> I -> O)
    (updates : option (Params -> I -> Params)) (th : Params) (x : I)
  : O * Params :=
  (outputs th x,
   match updates with
   | Some u => u th x
   | None => th
   end).

(** A model: its shared variables and the two hyperparameters that the
    compiled functions close over. *)
Record Model : Type := mkModel {
  params : Params;
  learning_rate : R;
  lambda_reg : R
}.

Definition with_params (mdl : Model) (th : Params) : Model :=
  mkModel th (learning_rate mdl) (lambda_reg mdl).

(** [self.train(Fp, Fr, y)]: the outputs [[y_hat, cost]] and the model
    after the call. *)
Definition train (mdl : Model) (Fp Fr : mat) (y : vec) : (vec * R) * Model :=
  let '(out, th) :=
    function
      (fun th '(Fp, Fr, y) => (y_hat th Fp Fr, cost (lambda_reg mdl) th Fp Fr y))
      (Some (fun th '(Fp, Fr, y) =>
               updates (learning_rate mdl) (lambda_reg mdl) th Fp Fr y))
      (params mdl) (Fp, Fr, y) in
  (out, with_params mdl th).

(** [self.test(Fp, Fr, y)] *)
Definition test (mdl : Model) (Fp Fr : mat) (y : vec) : (vec * R) * Model :=
  let '(out, th) :=
    function
      (fun th '(Fp, Fr, y) => (y_hat th Fp Fr, cost (lambda_reg mdl) th Fp Fr y))
      None (params mdl) (Fp, Fr, y) in
  (out, with_params mdl th).

(** [self.predict(Fp, Fr)] *)
Definition predict (mdl : Model) (Fp Fr : mat) : vec * Model :=
  let '(out, th) :=
    function (fun th '(Fp, Fr) => y_hat th Fp Fr) None (params mdl) (Fp, Fr) in
  (out, with_params mdl th).

(** [self.get_params()] *)
Definition get_params (mdl : Model) : Params := params mdl.

End Graph.

(** ** Initialization *)

(** The global generator of [np.random], as [Model.__init__] uses it. *)
Class NumpyRand : Type := {
  sampler : Type;
  (** [np.random.seed(s)] *)
  seeded : Z -> sampler;
  (** one draw of [np.random.rand]: uniform over [0, 1) *)
  random_sample : sampler -> R * sampler;
  random_sample_range : forall g, 0 <= (random_sample g).1 < 1
}.

Section Init.
Context `{NumpyRand}.

(** [np.random.rand(k)] *)
Fixpoint rand_vec (k : nat) (g : sampler) : vec * sampler :=
  match k with
  | O => ([], g)
  | S k' =>
      let '(u, g1) := random_sample g in
      let '(us, g2) := rand_vec k' g1 in
      (u :: us, g2)
  end.

(** [np.random.rand(rows, cols)], filled row by row *)
Fixpoint rand_mat (rows cols : nat) (g : sampler) : mat * sampler :=
  match rows with
  | O => ([], g)
  | S rows' =>
      let '(r, g1) := rand_vec cols g in
      let '(rs, g2) := rand_mat rows' cols g1 in
      (r :: rs, g2)
  end.

(** [(.5 - u) * irange] *)
Definition init_entry (irange u : R) : R := (0.5 - u) * irange.

(** [Model(n, m, sp, sr, irange, learning_rate, lambda_reg, seed)], run
    with the global generator in state [g0]: the model, and the state the
    generator is left in. *)
Definition Model_init (n m sp sr : nat) (irange learning_rate lambda_reg : R)
    (seed : Z) (g0 : sampler) : Model * sampler :=
  let g := seeded seed in
  let '(uAp, g) := rand_mat sp n g in
  let '(ubp, g) := rand_vec sp g in
  let '(uAr, g) := rand_mat sr m g in
  let '(ubr, g) := rand_vec sr g in
  let '(uB, g) := rand_mat sp sr g in
  (mkModel
     (mkParams (map (map (init_entry irange)) uAp)
               (map (init_entry irange) ubp)
               (map (map (init_entry irange)) uAr)
               (map (init_entry irange) ubr)
               (map (map (init_entry irange)) uB))
     learning_rate lambda_reg,
   g).

End Init.

(** All the entries of the five tensors. *)
Definition entries (th : Params) : vec :=
  concat (Ap th) ++ bp th ++ concat (Ar th) ++ br th ++ concat (B th).

(** Within the interval whose end points are [-irange/2] and [irange/2]. *)
Definition in_range (irange e : R) : Prop :=
  Rmin (- irange / 2) (irange / 2) <= e <= Rmax (- irange / 2) (irange / 2).

(** ** The cost in the words of its description *)

Definition sum_sq (t : vec) : R := T_sum (map (fun x => x * x) t).

(** The L2 (Frobenius) norm of a group of tensors taken together: the
    square root of the sum of the squares of all their entries. *)
Definition frobenius (group : list vec) : R := sqrt (T_sum (map sum_sq group)).

(** The number of entries of a group of tensors. *)
Definition count (group : list vec) : nat := length (concat group).

(** The mean, over the examples, of the squared difference between the
    prediction and the label. *)
Definition mean_squared_error (yh y : vec) : R :=
  let sq := zip_with (fun a b => (a - b) * (a - b)) yh y in
  T_sum sq / INR (length sq).

(** The three parameter groups. *)
Definition group_proteins (th : Params) : list vec := [concat (Ap th); bp th].
Definition group_rnas (th : Params) : list vec := [concat (Ar th); br th].
Definition group_B (th : Params) : list vec := [concat (B th)].

(** The cost as described: per group, the norm of the group over its
    number of entries. *)
Definition described_cost (lambda_reg : R) (th : Params) (Fp Fr : mat)
    (y : vec) : R :=
  mean_squared_error (y_hat th Fp Fr) y
  + lambda_reg
    * ((frobenius (group_proteins th) / INR (count (group_proteins th))
        + frobenius (group_rnas th) / INR (count (group_rnas th))
        + frobenius (group_B th) / INR (count (group_B th))) / 3).

(** The sum of the norms of the tensors of a group, each taken alone. *)
Definition sum_of_norms (group : list vec) : R :=
  T_sum (map (fun t => frobenius [t]) group).

Definition summed_cost (lambda_reg : R) (th : Params) (Fp Fr : mat)
    (y : vec) : R :=
  mean_squared_error (y_hat th Fp Fr) y
  + lambda_reg
    * ((sum_of_norms (group_proteins th) / INR (count (group_proteins th))
        + sum_of_norms (group_rnas th) / INR (count (group_rnas th))
        + sum_of_norms (group_B th) / INR (count (group_B th))) / 3).

(** ** Shapes, and a run of training steps *)

(** The shape of the five tensors: the row lengths of each matrix and the
    length of each vector. *)
Definition shape (th : Params)
  : list nat * nat * list nat * nat * list nat :=
  (map length (Ap th), length (bp th), map length (Ar th), length (br th),
   map length (B th)).

(** One [train] call per batch, in the order of the list; the outputs are
    dropped. *)
Definition train_all `{Autodiff} (mdl : Model)
    (batches : list (mat * mat * vec)) : Model :=
  foldl (fun mdl' '(Fp, Fr, y) => (train mdl' Fp Fr y).2) mdl batches.

(** ** The forward pass written with sums over indices *)

(** [sum_a x_a * w_a] *)
Definition inner (x w : vec) : R := T_sum (zip_with Rmult x w).

(** One latent vector: entry [j] is the sigmoid of the inner product of
    the features with row [j] of the projection matrix, plus the bias
    [j]. *)
Definition latent_row (A : mat) (b : vec) (f : vec) : vec :=
  zip_with (fun a bj => sigmoid (inner f a + bj)) A b.

(** [sum_j p_j * (sum_c B_jc * r_c)] *)
Definition bilinear (p : vec) (B : mat) (r : vec) : R :=
  T_sum (zip_with (fun pj brow => pj * inner brow r) p B).

(** ** Example models: one protein feature, one RNA feature, latent
    spaces of size one, and a batch of one pair with label 1. *)

Definition ex_params : Params := mkParams [[1]] [1] [[1]] [1] [[1]].
Definition one_Fp : mat := [[-1]].
Definition one_Fr : mat := [[-1]].
Definition one_y : vec := [1].




(** Protein group [{[[3]], [4]}], the other tensors zero, and
    [lambda_reg = 3]. *)
Definition ex_model_34 : Model :=
  mkModel (mkParams [[3]] [4] [[0]] [0] [[0]]) 1 3.


(** A generator whose every draw is a quarter. *)
#[local] Program Instance quarter_rand : NumpyRand := {|
  sampler := Z;
  seeded := fun s => s;
  random_sample := fun g => (/ 4, Z.succ g)
|}.
Next Obligation. intros g. simpl. lra. Qed.

End Model.

Import Data.

(** * Properties of the dataset builders *)

(** ** Filling a preallocated array *)

Lemma setitem_next (done : matrix) (z v : row) (k : nat) :
  setitem (done ++ replicate (S k) z) (length done) v
  = Ok ((done ++ [v]) ++ replicate k z).
Proof.
  unfold setitem. rewrite length_app, length_replicate.
  destruct (decide _) as [_|Hn]; [|lia].
  f_equal. rewrite insert_app_r_alt by lia.
  rewrite Nat.sub_diag. simpl. rewrite <- app_assoc. reflexivity.
Qed.

(** ** The cross join of [PredictDataset.load] *)

Lemma cross_join_length ps rs :
  length (cross_join ps rs) = length ps * length rs.
Proof.
  induction ps as [|p ps IH]; simpl; [reflexivity|].
  rewrite length_app, length_map, IH. reflexivity.
Qed.

Lemma cross_join_lookup ps rs i j pi rj :
  ps !! i = Some pi -> rs !! j = Some rj ->
  cross_join ps rs !! (i * length rs + j) = Some (pi, rj).
Proof.
  revert i. induction ps as [|p ps IH]; intros i Hi Hj;
    [destruct i; discriminate|].
  simpl. destruct i as [|i]; simpl in *.
  - injection Hi as ->. rewrite lookup_app_l.
    + rewrite list_lookup_fmap, Hj. reflexivity.
    + rewrite length_map. eapply lookup_lt_Some, Hj.
  - rewrite lookup_app_r; rewrite length_map; [|lia].
    replace (length rs + i * length rs + j - length rs)
      with (i * length rs + j) by lia.
    apply IH; assumption.
Qed.

Lemma df_getitem_features df c :
  c ∈ df_columns df ->
  df_getitem df c = Ok (mkSeries (df_index df) (df_cell df c)).
Proof. intros Hc. unfold df_getitem. rewrite bool_decide_eq_true_2; done. Qed.

Lemma cross_rna_step ds protein rna (zp zr : row) (dp dr : matrix) pn rn k :
  protein ∈ df_columns (pFp ds) ->
  rna ∈ df_columns (pFr ds) ->
  length dr = length dp ->
  cross_rna ds protein
    (mkCross (dp ++ replicate (S k) zp) pn (dr ++ replicate (S k) zr) rn
       (length dp)) rna
  = Ok (mkCross ((dp ++ [features (pFp ds) protein]) ++ replicate k zp)
          (pn ++ [protein])
          ((dr ++ [features (pFr ds) rna]) ++ replicate k zr)
          (rn ++ [rna]) (S (length dp))).
Proof.
  intros Hp Hr Hlen. unfold cross_rna.
  rewrite (df_getitem_features _ _ Hp).
  cbn [mbind result_bind c_p c_r c_index c_p_names c_r_names].
  rewrite setitem_next.
  cbn [mbind result_bind]. rewrite (df_getitem_features _ _ Hr).
  cbn [mbind result_bind]. rewrite <- Hlen, setitem_next.
  reflexivity.
Qed.

Lemma cross_rna_loop ds protein (zp zr : row) rnas :
  protein ∈ df_columns (pFp ds) ->
  Forall (fun rna => rna ∈ df_columns (pFr ds)) rnas ->
  forall (dp dr : matrix) pn rn k,
    length dr = length dp ->
    foldM (cross_rna ds protein)
      (mkCross (dp ++ replicate (length rnas + k) zp) pn
               (dr ++ replicate (length rnas + k) zr) rn (length dp)) rnas
    = Ok (mkCross
            ((dp ++ map (fun _ => features (pFp ds) protein) rnas)
               ++ replicate k zp)
            (pn ++ map (fun _ => protein) rnas)
            ((dr ++ map (features (pFr ds)) rnas) ++ replicate k zr)
            (rn ++ rnas)
            (length dp + length rnas)).
Proof.
  intros Hp Hr. induction Hr as [|rna rnas Hrna Hr IH]; intros dp dr pn rn k Hlen.
  - simpl. rewrite !app_nil_r, Nat.add_0_r. reflexivity.
  - cbn [foldM length Nat.add].
    rewrite cross_rna_step by assumption. cbn [mbind result_bind].
    specialize (IH (dp ++ [features (pFp ds) protein])
                   (dr ++ [features (pFr ds) rna])
                   (pn ++ [protein]) (rn ++ [rna]) k).
    rewrite !length_app in IH. simpl length in IH.
    replace (S (length dp)) with (length dp + 1) by lia.
    rewrite IH by lia.
    cbn [map]. rewrite <- !app_assoc. simpl.
    f_equal. f_equal. lia.
Qed.

Lemma cross_protein_loop ds (zp zr : row) ps :
  Forall (fun protein => protein ∈ df_columns (pFp ds)) ps ->
  forall (dp dr : matrix) pn rn k,
    length dr = length dp ->
    foldM (cross_protein ds)
      (mkCross
         (dp ++ replicate (length ps * length (df_columns (pFr ds)) + k) zp)
         pn
         (dr ++ replicate (length ps * length (df_columns (pFr ds)) + k) zr)
         rn (length dp)) ps
    = Ok (mkCross
            ((dp ++ map (fun pr => features (pFp ds) pr.1)
                      (cross_join ps (df_columns (pFr ds))))
               ++ replicate k zp)
            (pn ++ map fst (cross_join ps (df_columns (pFr ds))))
            ((dr ++ map (fun pr => features (pFr ds) pr.2)
                      (cross_join ps (df_columns (pFr ds))))
               ++ replicate k zr)
            (rn ++ map snd (cross_join ps (df_columns (pFr ds))))
            (length dp + length ps * length (df_columns (pFr ds)))).
Proof.
  intros Hps. set (rs := df_columns (pFr ds)).
  induction Hps as [|p ps Hp Hps IH]; intros dp dr pn rn k Hlen.
  - simpl. rewrite !app_nil_r, Nat.add_0_r. reflexivity.
  - cbn [foldM length Nat.mul cross_join flat_map].
    change (cross_protein ds ?st p) with (foldM (cross_rna ds p) st rs).
    rewrite <- Nat.add_assoc.
    rewrite cross_rna_loop; [|assumption|apply Forall_forall; auto|assumption].
    cbn [mbind result_bind].
    specialize (IH (dp ++ map (fun _ => features (pFp ds) p) rs)
                   (dr ++ map (features (pFr ds)) rs)
                   (pn ++ map (fun _ => p) rs) (rn ++ rs) k).
    rewrite !length_app, !length_map in IH.
    rewrite IH by lia.
    rewrite !map_app, !map_map. cbn [fst snd].
    rewrite <- !app_assoc. rewrite map_id.
    f_equal. f_equal. fold (cross_join ps rs). lia.
Qed.

Lemma PredictDataset_init_ok fp fr sel ds :
  PredictDataset_init fp fr sel = Ok ds ->
  ds = mkPredictDataset
         (mkDataFrame (df_index fp) (default (df_columns fp) sel) (df_cell fp))
         fr sel.
Proof.
  unfold PredictDataset_init, df_select. destruct sel as [cs|]; simpl.
  - destruct (mapM' (df_getitem fp) cs); simpl; [|discriminate].
    intros [= <-]. reflexivity.
  - intros [= <-]. destruct fp; reflexivity.
Qed.

(** C5. [PredictDataset.load] is the full cross join: with [ps] the
    proteins left by the optional restriction list and [rs] the RNAs, it
    returns one feature row per pair of [cross_join ps rs], so
    [length ps * length rs] rows in protein-major, RNA-minor order (the
    pair of protein [i] and RNA [j] sits at position
    [i * length rs + j]); the two name arrays are the components of the
    same pair list, so position [k] of each array speaks of the same
    pair; the function takes no generator, so nothing is shuffled. *)
Theorem predict_load_cross_join fp fr sel ds :
  PredictDataset_init fp fr sel = Ok ds ->
  NoDup (default (df_columns fp) sel) ->
  NoDup (df_columns fr) ->
  let ps := default (df_columns fp) sel in
  let rs := df_columns fr in
  let pairs := cross_join ps rs in
  predict_load ds
  = Ok (map (fun pr => features fp pr.1) pairs, map fst pairs,
        map (fun pr => features fr pr.2) pairs, map snd pairs)
  /\ length pairs = length ps * length rs
  /\ (forall i j pi rj, ps !! i = Some pi -> rs !! j = Some rj ->
        pairs !! (i * length rs + j) = Some (pi, rj)).
Proof.
  intros Hinit _ _ ps rs pairs.
  apply PredictDataset_init_ok in Hinit. subst ds.
  split; [|split].
  - unfold predict_load, np_zeros, shape1, shape0. cbn [pFp pFr df_columns df_index].
    fold ps rs.
    pose proof (cross_protein_loop
      (mkPredictDataset (mkDataFrame (df_index fp) ps (df_cell fp)) fr sel)
      (replicate (length (df_index fp)) 0%float)
      (replicate (length (df_index fr)) 0%float) ps) as Hloop.
    cbn [pFp pFr df_columns] in Hloop.
    specialize (Hloop ltac:(apply Forall_forall; auto) [] [] [] [] 0 eq_refl).
    fold rs in Hloop. rewrite Nat.add_0_r in Hloop.
    cbn [app length Nat.add] in Hloop.
    rewrite Hloop. cbn [mbind result_bind c_p c_r c_p_names c_r_names].
    rewrite !app_nil_r. reflexivity.
  - apply cross_join_length.
  - intros. apply cross_join_lookup; assumption.
Qed.

(** ** The per-RNA batches of [TrainDataset.load] *)

Lemma fill_protein_missing ds rna st c :
  rna ∈ df_index (Y ds) -> c ∈ df_columns (Y ds) ->
  is_nan (df_cell (Y ds) c rna) = true ->
  fill_protein ds rna st c = Ok st.
Proof.
  intros Hr Hc Hnan. unfold fill_protein.
  rewrite (df_getitem_features _ _ Hc). cbn [mbind result_bind].
  unfold s_getitem. cbn [s_index s_cell].
  rewrite bool_decide_eq_true_2 by assumption. cbn [mbind result_bind].
  rewrite Hnan. reflexivity.
Qed.

Lemma fill_protein_labelled ds rna c (zp zr zi : row) (dp dr di : matrix)
    pos neg k :
  rna ∈ df_index (Y ds) -> c ∈ df_columns (Y ds) ->
  c ∈ df_columns (Fp ds) -> rna ∈ df_columns (Fr ds) ->
  is_nan (df_cell (Y ds) c rna) = false ->
  length dr = length dp -> length di = length dp ->
  fill_protein ds rna
    (mkFill (dp ++ replicate (S k) zp) (dr ++ replicate (S k) zr)
       (di ++ replicate (S k) zi) (length dp) pos neg) c
  = Ok (mkFill ((dp ++ [features (Fp ds) c]) ++ replicate k zp)
          ((dr ++ [features (Fr ds) rna]) ++ replicate k zr)
          ((di ++ [[df_cell (Y ds) c rna]]) ++ replicate k zi)
          (S (length dp))
          (pos + positives ds rna [c]) (neg + negatives ds rna [c])).
Proof.
  intros Hr Hc Hcp Hrr Hnan Hlr Hli. unfold fill_protein.
  rewrite (df_getitem_features _ _ Hc). cbn [mbind result_bind].
  unfold s_getitem. cbn [s_index s_cell].
  rewrite bool_decide_eq_true_2 by assumption. cbn [mbind result_bind].
  rewrite Hnan.
  rewrite (df_getitem_features _ _ Hcp).
  cbn [mbind result_bind f_p f_r f_i f_index f_pos f_neg].
  rewrite setitem_next. cbn [mbind result_bind].
  rewrite (df_getitem_features _ _ Hrr). cbn [mbind result_bind].
  rewrite <- Hlr, setitem_next. cbn [mbind result_bind].
  rewrite Hlr, <- Hli, setitem_next. cbn [mbind result_bind].
  unfold positives, negatives. rewrite !filter_cons, !filter_nil.
  destruct (0 <? df_cell (Y ds) c rna)%float eqn:Hpos.
  - rewrite decide_True by reflexivity. rewrite decide_False by discriminate.
    simpl length. rewrite Nat.add_0_r, Nat.add_1_r, Hli. reflexivity.
  - rewrite decide_False by discriminate. rewrite decide_True by reflexivity.
    simpl length. rewrite Nat.add_0_r, Nat.add_1_r, Hli. reflexivity.
Qed.

Lemma positives_app ds rna l1 l2 :
  positives ds rna (l1 ++ l2) = positives ds rna l1 + positives ds rna l2.
Proof. unfold positives. rewrite filter_app, length_app. reflexivity. Qed.

Lemma negatives_app ds rna l1 l2 :
  negatives ds rna (l1 ++ l2) = negatives ds rna l1 + negatives ds rna l2.
Proof. unfold negatives. rewrite filter_app, length_app. reflexivity. Qed.



Lemma take_map (f : string -> row) cs perm :
  Forall (fun k => k < length cs) perm ->
  take (map f cs) perm = Ok (map f (reorder cs perm)).
Proof.
  intros Hperm. unfold take, reorder.
  induction Hperm as [|k perm Hk Hperm IH]; [reflexivity|].
  cbn [mapM' map]. rewrite list_lookup_fmap.
  destruct (nth_lookup_or_length cs k ""%string) as [Hn|Hn]; [|lia].
  rewrite Hn. cbn [fmap option_fmap option_map mbind result_bind].
  rewrite IH. reflexivity.
Qed.

Lemma map_nth_seq (cs : list string) :
  map (fun k => nth k cs ""%string) (seq 0 (length cs)) = cs.
Proof.
  induction cs as [|c cs IH]; [reflexivity|].
  cbn [length seq map nth]. f_equal.
  rewrite <- seq_shift, map_map. exact IH.
Qed.

Lemma reorder_perm cs perm :
  Permutation perm (seq 0 (length cs)) -> Permutation (reorder cs perm) cs.
Proof.
  intros Hp. unfold reorder.
  etransitivity; [apply Permutation_map, Hp|].
  rewrite map_nth_seq. reflexivity.
Qed.

Lemma perm_in_range perm n :
  Permutation perm (seq 0 n) -> Forall (fun k => k < n) perm.
Proof.
  intros Hp. apply Forall_forall. intros k Hk.
  apply list_elem_of_In in Hk.
  apply (Permutation_in _ Hp), in_seq in Hk. lia.
Qed.

Lemma flatten_singletons (g : string -> float) cs :
  flatten (map (fun c => [g c]) cs) = map g cs.
Proof.
  unfold flatten. induction cs as [|c cs IH]; [reflexivity|].
  cbn [map concat app]. rewrite IH. reflexivity.
Qed.

Lemma s_count_loc ds rna :
  s_count (mkSeries (df_columns (Y ds)) (fun c => df_cell (Y ds) c rna))
  = length (labelled ds rna).
Proof.
  unfold s_count, s_values, labelled, labelled_in. cbn [s_index s_cell].
  induction (df_columns (Y ds)) as [|c cs IH]; [reflexivity|].
  cbn [map]. rewrite !filter_cons.
  destruct (decide (is_nan (df_cell (Y ds) c rna) = false));
    cbn [length]; congruence.
Qed.

Section LoadFacts.
Context `{NumpyRandom}.

Lemma df_loc_row ds rna :
  rna ∈ df_index (Y ds) ->
  df_loc (Y ds) rna
  = Ok (mkSeries (df_columns (Y ds)) (fun c => df_cell (Y ds) c rna)).
Proof. intros Hr. unfold df_loc. rewrite bool_decide_eq_true_2; done. Qed.




(** *** The loop over the RNAs *)

Lemma progress_due_small n len :
  len < 10 -> progress_due n len = Raise ZeroDivisionError.
Proof.
  intros Hlen. unfold progress_due.
  rewrite Nat.div_small by assumption.
  rewrite decide_True by reflexivity. reflexivity.
Qed.

Lemma progress_due_large n len :
  10 <= len -> progress_due n len = Ok (n mod (len / 10) =? 0).
Proof.
  intros Hlen. unfold progress_due.
  rewrite decide_False; [reflexivity|].
  assert (1 <= len / 10); [|lia].
  apply Nat.div_le_lower_bound; lia.
Qed.

Lemma load_step_small ds st nr :
  length (df_index (Y ds)) < 10 ->
  load_step ds st nr = Raise ZeroDivisionError.
Proof.
  intros Hlen. unfold load_step.
  rewrite progress_due_small by assumption. reflexivity.
Qed.

Lemma load_step_large ds st n rna :
  10 <= length (df_index (Y ds)) ->
  exists st1,
    load_step ds st (n, rna) = make_batch ds st1 rna
    /\ dataset st1 = dataset st /\ num_pos st1 = num_pos st
    /\ num_neg st1 = num_neg st /\ num_batches st1 = num_batches st.
Proof.
  intros Hlen. unfold load_step. cbn [fst snd].
  rewrite progress_due_large by assumption. cbn [mbind result_bind].
  destruct (_ =? _); eexists; (split; [reflexivity|]); auto.
Qed.

(** The first RNA already stops [load] when there are fewer than ten. *)
Lemma load_loop_small ds st n rna items :
  length (df_index (Y ds)) < 10 ->
  foldM (load_step ds) st ((n, rna) :: items) = Raise ZeroDivisionError.
Proof.
  intros Hlen. cbn [foldM]. rewrite load_step_small by assumption.
  reflexivity.
Qed.


Lemma enumerate_snd {A} (l : list A) : map snd (enumerate l) = l.
Proof.
  unfold enumerate. generalize 0.
  induction l as [|x l IH]; intros n; [reflexivity|].
  cbn [length seq zip zip_with map snd]. f_equal. apply IH.
Qed.


(** With one to nine RNAs the first progress check divides by zero. *)
Lemma load_small ds g :
  0 < length (df_index (Y ds)) < 10 -> load ds g = Raise ZeroDivisionError.
Proof.
  intros [Hpos Hlen]. unfold load, enumerate.
  destruct (df_index (Y ds)) as [|r rs] eqn:Hidx; [cbn in Hpos; lia|].
  cbn [length seq zip zip_with]. rewrite load_loop_small; [reflexivity|].
  rewrite Hidx. exact Hlen.
Qed.

End LoadFacts.

(** ** Statements about [TrainDataset.load] *)

Lemma labelled_spec ds rna c :
  c ∈ labelled ds rna
  <-> c ∈ df_columns (Y ds) /\ is_nan (df_cell (Y ds) c rna) = false.
Proof.
  unfold labelled, labelled_in. rewrite list_elem_of_filter. tauto.
Qed.

Section LoadClaims.
Context `{NumpyRandom}.


(** C6, as the code has it. With at least one and fewer than ten RNAs
    every progress check computes a remainder modulo zero, and [load]
    stops with [ZeroDivisionError] at the first RNA. *)
Theorem load_fewer_than_ten_rnas ds g :
  0 < length (df_index (Y ds)) < 10 ->
  (forall n, progress_due n (length (df_index (Y ds)))
             = Raise ZeroDivisionError)
  /\ load ds g = Raise ZeroDivisionError.
Proof.
  intros Hlen. split.
  - intros n. apply progress_due_small. lia.
  - apply load_small, Hlen.
Qed.


End LoadClaims.

(** ** The statements on the example frames *)

Ltac by_computation := apply (bool_decide_unpack _); vm_compute; exact I.

Lemma ex_train_unique : unique_labels (Y ex_train).
Proof. split; by_computation. Qed.



Lemma load_fewer_than_ten_rnas_witness :
  0 < length (df_index (Y ex_train1)) < 10
  /\ (forall n, progress_due n (length (df_index (Y ex_train1)))
                = Raise ZeroDivisionError)
  /\ load (H := reversing_random) ex_train1 0%Z = Raise ZeroDivisionError.
Proof.
  assert (0 < length (df_index (Y ex_train1)) < 10) as Hlen
    by (vm_compute; lia).
  split; [exact Hlen|].
  exact (load_fewer_than_ten_rnas (H := reversing_random) ex_train1 0%Z Hlen).
Defined.

(** C6 as it was stated fails for a frame without RNAs: it has fewer than
    ten, the loop body never runs, and [load] returns the empty list. *)
Lemma load_no_rna_returns :
  TrainDataset_init ex_Fp ex_Fr0 ex_Y0 1234 = Ok ex_train0
  /\ length (df_index (Y ex_train0)) < 10
  /\ load (H := reversing_random) ex_train0 0%Z
     = Ok (mkLoaded (H := reversing_random) [] 0 0 0 1235%Z).
Proof. split; [reflexivity|]. split; [vm_compute; lia | reflexivity]. Qed.


(** C10 fails on the code for a frame with one RNA: the constructor
    accepts the frames, the claim asks for a list of one batch, and
    [load] raises at the first progress check, whatever the generator
    does. *)
Theorem load_single_rna_raises `{NumpyRandom} (g : rng_state) :
  TrainDataset_init ex_Fp1 ex_Fr1 ex_Y1 1234 = Ok ex_train1
  /\ length (df_index (Y ex_train1)) = 1
  /\ load ex_train1 g = Raise ZeroDivisionError.
Proof.
  split; [reflexivity|]. split; [reflexivity|].
  apply load_small. vm_compute. lia.
Qed.

Lemma predict_load_cross_join_witness :
  PredictDataset_init ex_Fp ex_Fr3 None
  = Ok (mkPredictDataset ex_Fp ex_Fr3 None)
  /\ NoDup (df_columns ex_Fp) /\ NoDup (df_columns ex_Fr3)
  /\ predict_load (mkPredictDataset ex_Fp ex_Fr3 None)
     = Ok (map (fun pr => features ex_Fp pr.1)
             (cross_join ["P1"; "P2"] ["R1"; "R2"; "R3"]),
           ["P1"; "P1"; "P1"; "P2"; "P2"; "P2"],
           map (fun pr => features ex_Fr3 pr.2)
             (cross_join ["P1"; "P2"] ["R1"; "R2"; "R3"]),
           ["R1"; "R2"; "R3"; "R1"; "R2"; "R3"])
  /\ length (cross_join ["P1"; "P2"] ["R1"; "R2"; "R3"]) = 2 * 3.
Proof.
  assert (NoDup (df_columns ex_Fp)) as Hp by by_computation.
  assert (NoDup (df_columns ex_Fr3)) as Hr by by_computation.
  pose proof (predict_load_cross_join ex_Fp ex_Fr3 None
                (mkPredictDataset ex_Fp ex_Fr3 None) eq_refl Hp Hr)
    as (Hload & Hlen & _).
  split; [reflexivity|]. split; [exact Hp|]. split; [exact Hr|].
  split; [exact Hload | exact Hlen].
Defined.

(** * Properties of the factorization model *)

Import Model.
Local Open Scope R_scope.

(** ** The sigmoid *)


Lemma sigmoid_bounds x : 0 < sigmoid x < 1.
Proof.
  pose proof (exp_pos (- x)) as He. unfold sigmoid. split.
  - apply Rdiv_lt_0_compat; lra.
  - apply Rmult_lt_reg_r with (1 + exp (- x)); [lra|].
    unfold Rdiv. rewrite Rmult_assoc, Rinv_l by lra. lra.
Qed.


(** In exact arithmetic every prediction lies strictly between 0 and 1.
    (Rounded arithmetic is another matter: a sigmoid computed in binary64
    returns exactly 1 for arguments from about 37 on.) *)
Lemma y_hat_bounds th Fp Fr : Forall (fun v => 0 < v < 1) (y_hat th Fp Fr).
Proof.
  unfold y_hat. apply Forall_forall. intros v Hv.
  apply list_elem_of_fmap in Hv as (x & -> & _). apply sigmoid_bounds.
Qed.


(** ** Calls that only read the shared variables *)

Lemma with_params_same mdl : with_params mdl (params mdl) = mdl.
Proof. destruct mdl. reflexivity. Qed.

(** C8. [test] (the evaluate operation) and [predict] hand back the model
    they were given, so none of the five tensors changes; a second
    [test] on the same inputs, also after any of these two calls, returns
    the same predictions and cost. *)
Theorem test_reads_only mdl Fp Fr y Fp' Fr' :
  (test mdl Fp Fr y).2 = mdl
  /\ get_params (test mdl Fp Fr y).2 = get_params mdl
  /\ (predict mdl Fp' Fr').2 = mdl
  /\ (test (test mdl Fp Fr y).2 Fp Fr y).1 = (test mdl Fp Fr y).1
  /\ (test (predict mdl Fp' Fr').2 Fp Fr y).1 = (test mdl Fp Fr y).1.
Proof.
  assert ((test mdl Fp Fr y).2 = mdl) as Ht
    by (unfold test, function; cbn; apply with_params_same).
  assert ((predict mdl Fp' Fr').2 = mdl) as Hp
    by (unfold predict, function; cbn; apply with_params_same).
  rewrite Ht, Hp. repeat split; reflexivity.
Qed.

(** ** The cost *)

Lemma squares_flip y yh :
  map Rsqr (zip_with Rminus y yh)
  = zip_with (fun a b => (a - b) * (a - b)) yh y.
Proof.
  revert yh. induction y as [|b y IH]; intros [|a yh]; try reflexivity.
  cbn [zip_with map]. rewrite IH. f_equal. unfold Rsqr. ring.
Qed.

Lemma cost_mse th Fp Fr y :
  cost_ th Fp Fr y = mean_squared_error (y_hat th Fp Fr) y.
Proof.
  unfold cost_, mean, mean_squared_error. rewrite squares_flip. reflexivity.
Qed.

Lemma norm2_frobenius t : norm2 t = frobenius [t].
Proof.
  unfold norm2, frobenius, sum_sq. cbn [map T_sum foldr].
  rewrite Rplus_0_r. reflexivity.
Qed.

Lemma regularization_summed th :
  regularization th
  = (sum_of_norms (group_proteins th) / INR (count (group_proteins th))
     + sum_of_norms (group_rnas th) / INR (count (group_rnas th))
     + sum_of_norms (group_B th) / INR (count (group_B th))) / 3.
Proof.
  unfold regularization, sum_of_norms, count, group_proteins, group_rnas,
    group_B.
  cbn [map T_sum foldr concat]. rewrite !app_nil_r, !length_app.
  rewrite !norm2_frobenius, !Rplus_0_r. reflexivity.
Qed.

Lemma cost_summed lam th Fp Fr y :
  cost lam th Fp Fr y = summed_cost lam th Fp Fr y.
Proof.
  unfold cost, summed_cost. rewrite cost_mse, regularization_summed.
  reflexivity.
Qed.

Section TrainFacts.
Context `{Autodiff}.

(** C2, as the code has it. [train] and [test] return the predictions
    and the cost computed from the shared variables as they are when the
    call starts; the cost is the mean squared error between predictions
    and labels plus [lambda_reg] times the average, over the three groups,
    of the sum of the L2 norms of the group's tensors divided by the
    group's number of entries. *)
Theorem cost_is_mse_plus_summed_norms mdl Fp Fr y :
  (train mdl Fp Fr y).1
  = (y_hat (params mdl) Fp Fr,
     summed_cost (lambda_reg mdl) (params mdl) Fp Fr y)
  /\ (test mdl Fp Fr y).1
     = (y_hat (params mdl) Fp Fr,
        summed_cost (lambda_reg mdl) (params mdl) Fp Fr y).
Proof.
  unfold train, test, function. cbn [fst]. rewrite cost_summed.
  split; reflexivity.
Qed.

End TrainFacts.

Lemma frobenius_value group r :
  0 <= r -> T_sum (map sum_sq group) = r * r -> frobenius group = r.
Proof.
  intros Hr Hsq. unfold frobenius. rewrite Hsq. apply sqrt_square, Hr.
Qed.

(** C2 as it was stated fails when a group has two nonzero tensors: for
    the protein group [{[[3]], [4]}] the code adds the norms 3 and 4,
    where the norm of the group is 5; with [lambda_reg = 3] the returned
    cost is 1 above the described one. *)
Lemma described_cost_differs :
  (test ex_model_34 one_Fp one_Fr one_y).1.2
  - described_cost (lambda_reg ex_model_34) (params ex_model_34)
      one_Fp one_Fr one_y
  = 1.
Proof.
  unfold test, function. cbn [fst snd]. rewrite cost_summed.
  unfold summed_cost, described_cost, sum_of_norms, group_proteins,
    group_rnas, group_B, count.
  cbn [ex_model_34 params lambda_reg Ap bp Ar br B concat app length map
       T_sum foldr].
  rewrite (frobenius_value [[3]] 3), (frobenius_value [[4]] 4),
    (frobenius_value [[0]] 0), (frobenius_value [[3]; [4]] 5),
    (frobenius_value [[0]; [0]] 0);
    try lra; try (unfold sum_sq; cbn; lra).
Qed.

(** ** The update of the shared variables *)



Section UpdateFacts.
Context `{Autodiff}.


Lemma train_params mdl Fp Fr y :
  (train mdl Fp Fr y).2
  = with_params mdl
      (updates (learning_rate mdl) (lambda_reg mdl) (params mdl) Fp Fr y).
Proof. reflexivity. Qed.


End UpdateFacts.

(** *** On the example model *)









(** ** Initialization *)

Section InitFacts.
Context `{NumpyRand}.

Lemma rand_vec_range k g :
  Forall (fun u => 0 <= u < 1) (rand_vec k g).1.
Proof.
  revert g. induction k as [|k IH]; intros g; cbn [rand_vec].
  - constructor.
  - pose proof (random_sample_range g) as Hu.
    destruct (random_sample g) as [u g1]. specialize (IH g1).
    destruct (rand_vec k g1) as [us g2]. cbn [fst] in *.
    constructor; assumption.
Qed.

Lemma rand_mat_range rows cols g :
  Forall (Forall (fun u => 0 <= u < 1)) (rand_mat rows cols g).1.
Proof.
  revert g. induction rows as [|rows IH]; intros g; cbn [rand_mat].
  - constructor.
  - pose proof (rand_vec_range cols g) as Hr.
    destruct (rand_vec cols g) as [r g1]. specialize (IH g1).
    destruct (rand_mat rows cols g1) as [rs g2]. cbn [fst] in *.
    constructor; assumption.
Qed.

Lemma init_entry_range irange u :
  0 <= u < 1 -> in_range irange (init_entry irange u).
Proof.
  intros Hu. unfold in_range, init_entry, Rmin, Rmax.
  destruct (Rle_dec (- irange / 2) (irange / 2)); nra.
Qed.

Lemma init_vec_range irange us :
  Forall (fun u => 0 <= u < 1) us ->
  Forall (in_range irange) (map (init_entry irange) us).
Proof.
  intros Hus. apply Forall_fmap. eapply Forall_impl; [exact Hus|].
  intros u. apply init_entry_range.
Qed.

Lemma init_mat_range irange uss :
  Forall (Forall (fun u => 0 <= u < 1)) uss ->
  Forall (in_range irange) (concat (map (map (init_entry irange)) uss)).
Proof.
  intros Huss. apply Forall_concat, Forall_fmap.
  eapply Forall_impl; [exact Huss|]. intros us. apply init_vec_range.
Qed.

(** C9. The model built by the constructor, and the state it leaves the
    generator in, do not depend on the state [g0] the generator was in
    before: they are a function of the seed, the shapes and the
    hyperparameters alone, so two constructions with these equal give
    equal tensors and equal first predictions.  Every initial entry lies
    between [-irange/2] and [irange/2] (for a nonnegative [irange] that
    is [-irange/2 <= e <= irange/2]). *)
Theorem Model_init_deterministic n m sp sr irange lr lam seed g0 g0' :
  Model_init n m sp sr irange lr lam seed g0
  = Model_init n m sp sr irange lr lam seed g0'
  /\ (forall Fp Fr,
        (predict (Model_init n m sp sr irange lr lam seed g0).1 Fp Fr).1
        = (predict (Model_init n m sp sr irange lr lam seed g0').1 Fp Fr).1)
  /\ Forall (in_range irange)
       (entries (get_params (Model_init n m sp sr irange lr lam seed g0).1))
  /\ (0 <= irange ->
      Forall (fun e => - irange / 2 <= e <= irange / 2)
        (entries (get_params (Model_init n m sp sr irange lr lam seed g0).1))).
Proof.
  assert (Forall (in_range irange)
            (entries (get_params
                        (Model_init n m sp sr irange lr lam seed g0).1)))
    as Hrange.
  { unfold Model_init, get_params, entries.
    pose proof (rand_mat_range sp n (seeded seed)) as H1.
    destruct (rand_mat sp n (seeded seed)) as [uAp g1].
    pose proof (rand_vec_range sp g1) as H2.
    destruct (rand_vec sp g1) as [ubp g2].
    pose proof (rand_mat_range sr m g2) as H3.
    destruct (rand_mat sr m g2) as [uAr g3].
    pose proof (rand_vec_range sr g3) as H4.
    destruct (rand_vec sr g3) as [ubr g4].
    pose proof (rand_mat_range sp sr g4) as H5.
    destruct (rand_mat sp sr g4) as [uB g5].
    cbn [fst params Ap bp Ar br B] in *.
    rewrite !Forall_app.
    repeat split; auto using init_mat_range, init_vec_range. }
  split; [reflexivity|]. split; [reflexivity|]. split; [exact Hrange|].
  intros Hpos. eapply Forall_impl; [exact Hrange|].
  intros e. unfold in_range, Rmin, Rmax.
  destruct (Rle_dec (- irange / 2) (irange / 2)); lra.
Qed.

End InitFacts.

Lemma Model_init_deterministic_witness :
  0 <= 1 / 100
  /\ Forall (fun e => - (1 / 100) / 2 <= e <= 1 / 100 / 2)
       (entries (get_params
                   (Model_init (H := quarter_rand) 3 2 2 2 (1 / 100) (1 / 100)
                      (1 / 100) 1234 0%Z).1)).
Proof.
  split; [lra|].
  apply (proj2 (proj2 (proj2
    (Model_init_deterministic (H := quarter_rand) 3 2 2 2 (1 / 100) (1 / 100)
       (1 / 100) 1234 0%Z 0%Z)))).
  lra.
Defined.

(** * Further properties of the dataset builders *)

Close Scope R_scope.

(** ** The loop of [load] with ids missing from the feature frames *)

Section GapFacts.
Context `{NumpyRandom}.

Lemma df_getitem_missing df c :
  c ∉ df_columns df -> df_getitem df c = Raise (KeyError c).
Proof.
  intros Hc. unfold df_getitem. rewrite (bool_decide_eq_false_2 _ Hc).
  reflexivity.
Qed.

Lemma fill_protein_no_protein ds rna st c :
  rna ∈ df_index (Y ds) -> c ∈ df_columns (Y ds) ->
  is_nan (df_cell (Y ds) c rna) = false ->
  c ∉ df_columns (Fp ds) ->
  fill_protein ds rna st c = Raise (KeyError c).
Proof.
  intros Hr Hc Hnan Hcp. unfold fill_protein.
  rewrite (df_getitem_features _ _ Hc). cbn [mbind result_bind].
  unfold s_getitem. cbn [s_index s_cell].
  rewrite bool_decide_eq_true_2 by assumption. cbn [mbind result_bind].
  rewrite Hnan, (df_getitem_missing _ _ Hcp). reflexivity.
Qed.

Lemma fill_protein_no_rna ds rna c (zp : row) (dp : matrix) fr fi pos neg k :
  rna ∈ df_index (Y ds) -> c ∈ df_columns (Y ds) ->
  is_nan (df_cell (Y ds) c rna) = false ->
  c ∈ df_columns (Fp ds) -> rna ∉ df_columns (Fr ds) ->
  fill_protein ds rna
    (mkFill (dp ++ replicate (S k) zp) fr fi (length dp) pos neg) c
  = Raise (KeyError rna).
Proof.
  intros Hr Hc Hnan Hcp Hrr. unfold fill_protein.
  rewrite (df_getitem_features _ _ Hc). cbn [mbind result_bind].
  unfold s_getitem. cbn [s_index s_cell].
  rewrite bool_decide_eq_true_2 by assumption. cbn [mbind result_bind].
  rewrite Hnan. rewrite (df_getitem_features _ _ Hcp).
  cbn [mbind result_bind f_p f_r f_i f_index]. rewrite setitem_next.
  cbn [mbind result_bind]. rewrite (df_getitem_missing _ _ Hrr).
  reflexivity.
Qed.

Lemma fill_loop_gen ds rna (zp zr zi : row) cs :
  rna ∈ df_index (Y ds) ->
  Forall (fun c => c ∈ df_columns (Y ds)) cs ->
  forall (dp dr di : matrix) pos neg k,
    length dr = length dp -> length di = length dp ->
    foldM (fill_protein ds rna)
      (mkFill (dp ++ replicate (length (labelled_in ds rna cs) + k) zp)
              (dr ++ replicate (length (labelled_in ds rna cs) + k) zr)
              (di ++ replicate (length (labelled_in ds rna cs) + k) zi)
              (length dp) pos neg) cs
    = match missing_in ds rna cs with
      | Some key => Raise (KeyError key)
      | None =>
          Ok (mkFill
                ((dp ++ map (features (Fp ds)) (labelled_in ds rna cs))
                   ++ replicate k zp)
                ((dr ++ map (fun _ => features (Fr ds) rna)
                          (labelled_in ds rna cs)) ++ replicate k zr)
                ((di ++ map (fun c => [df_cell (Y ds) c rna])
                          (labelled_in ds rna cs)) ++ replicate k zi)
                (length dp + length (labelled_in ds rna cs))
                (pos + positives ds rna (labelled_in ds rna cs))
                (neg + negatives ds rna (labelled_in ds rna cs)))
      end.
Proof.
  intros Hr Hcs. induction Hcs as [|c cs Hc Hcs IH];
    intros dp dr di pos neg k Hlr Hli.
  - simpl. rewrite !app_nil_r, !Nat.add_0_r. reflexivity.
  - unfold labelled_in. rewrite filter_cons. fold (labelled_in ds rna cs).
    cbn [foldM missing_in].
    destruct (is_nan (df_cell (Y ds) c rna)) eqn:Hnan.
    + rewrite decide_False by discriminate.
      rewrite fill_protein_missing by assumption. cbn [mbind result_bind].
      apply IH; assumption.
    + rewrite decide_True by reflexivity. cbn [length Nat.add].
      destruct (decide (c ∈ df_columns (Fp ds))) as [Hcp|Hcp].
      2:{ rewrite (bool_decide_eq_false_2 _ Hcp).
          rewrite fill_protein_no_protein by assumption. reflexivity. }
      rewrite (bool_decide_eq_true_2 _ Hcp).
      destruct (decide (rna ∈ df_columns (Fr ds))) as [Hrr|Hrr].
      2:{ rewrite (bool_decide_eq_false_2 _ Hrr).
          rewrite fill_protein_no_rna by assumption. reflexivity. }
      rewrite (bool_decide_eq_true_2 _ Hrr).
      rewrite fill_protein_labelled by assumption. cbn [mbind result_bind].
      specialize (IH (dp ++ [features (Fp ds) c])
                     (dr ++ [features (Fr ds) rna])
                     (di ++ [[df_cell (Y ds) c rna]])
                     (pos + positives ds rna [c])
                     (neg + negatives ds rna [c]) k).
      rewrite !length_app in IH. simpl length in IH.
      replace (S (length dp)) with (length dp + 1) by lia.
      rewrite IH by lia.
      destruct (missing_in ds rna cs); [reflexivity|].
      change (c :: labelled_in ds rna cs) with ([c] ++ labelled_in ds rna cs).
      rewrite positives_app, negatives_app, !map_app.
      cbn [map]. rewrite <- !app_assoc. cbn [app].
      f_equal. f_equal; lia.
Qed.

(** The body of the loop over the RNAs, whatever the feature frames hold. *)
Lemma make_batch_gen ds st rna :
  rna ∈ df_index (Y ds) ->
  make_batch ds st rna
  = match missing_in ds rna (df_columns (Y ds)) with
    | Some key => Raise (KeyError key)
    | None =>
        Ok (mkLoad
              (dataset st
               ++ [batch_of_order ds rna
                     (reorder (labelled ds rna)
                        (np_permutation (length (labelled ds rna))
                           (rng st)).1)])
              (num_pos st + positives ds rna (labelled ds rna))
              (num_neg st + negatives ds rna (labelled ds rna))
              (S (num_batches st)) (progress st)
              (np_permutation (length (labelled ds rna)) (rng st)).2)
    end.
Proof.
  intros Hr. unfold make_batch.
  rewrite (df_loc_row _ _ Hr). cbn [mbind result_bind].
  rewrite s_count_loc. unfold np_zeros.
  pose proof (fill_loop_gen ds rna
    (replicate (shape0 (Fp ds)) 0%float) (replicate (shape0 (Fr ds)) 0%float)
    (replicate 1 0%float) (df_columns (Y ds)) Hr
    ltac:(apply Forall_forall; auto) [] [] [] (num_pos st) (num_neg st) 0
    eq_refl eq_refl) as Hloop.
  fold (labelled ds rna) in Hloop.
  rewrite Nat.add_0_r in Hloop. cbn [app length Nat.add] in Hloop.
  rewrite Hloop. clear Hloop.
  destruct (missing_in ds rna (df_columns (Y ds))); [reflexivity|].
  cbn [mbind result_bind f_p f_r f_i f_pos f_neg].
  rewrite !app_nil_r.
  pose proof (np_permutation_perm (length (labelled ds rna)) (rng st)) as Hperm.
  destruct (np_permutation (length (labelled ds rna)) (rng st)) as [perm g].
  cbn [fst snd] in *.
  apply perm_in_range in Hperm.
  rewrite !take_map by assumption. cbn [mbind result_bind].
  rewrite flatten_singletons. reflexivity.
Qed.

Lemma load_loop_gen ds items :
  10 <= length (df_index (Y ds)) ->
  Forall (fun nr => snd nr ∈ df_index (Y ds)) items ->
  forall st,
    match missing_key ds (map snd items) with
    | Some key => foldM (load_step ds) st items = Raise (KeyError key)
    | None =>
        exists st' bs,
          foldM (load_step ds) st items = Ok st'
          /\ dataset st' = dataset st ++ bs
          /\ Forall2 (batch_covers ds) (map snd items) bs
          /\ num_batches st' = num_batches st + length items
          /\ num_pos st'
             = num_pos st
               + total (fun r => positives ds r (labelled ds r))
                   (map snd items)
          /\ num_neg st'
             = num_neg st
               + total (fun r => negatives ds r (labelled ds r))
                   (map snd items)
    end.
Proof.
  intros Hlen Hitems.
  induction Hitems as [|[n rna] items Hr Hitems IH]; intros st.
  - exists st, []. cbn. rewrite app_nil_r, !Nat.add_0_r.
    repeat split; constructor.
  - cbn [fst snd] in Hr. cbn [foldM map snd missing_key].
    destruct (load_step_large ds st n rna Hlen)
      as (st1 & -> & E1 & E2 & E3 & E4).
    rewrite (make_batch_gen ds st1 rna Hr).
    destruct (missing_in ds rna (df_columns (Y ds))); [reflexivity|].
    cbn [mbind result_bind].
    match goal with |- context [foldM _ ?s items] => specialize (IH s) end.
    destruct (missing_key ds (map snd items)); [exact IH|].
    destruct IH as (st' & bs & Hrun & Hds & Hcov & Hnb & Hpos & Hneg).
    cbn [dataset num_batches num_pos num_neg] in Hds, Hnb, Hpos, Hneg.
    exists st', (batch_of_order ds rna
                   (reorder (labelled ds rna)
                      (np_permutation (length (labelled ds rna)) (rng st1)).1)
                 :: bs).
    split; [exact Hrun|]. split; [|split; [|split; [|split]]].
    + rewrite Hds, E1, <- app_assoc. reflexivity.
    + constructor; [|exact Hcov].
      eexists; split; [|reflexivity].
      apply reorder_perm, np_permutation_perm.
    + rewrite Hnb, E4. cbn [length]. lia.
    + rewrite Hpos, E2. cbn [total foldr].
      fold (total (fun r => positives ds r (labelled ds r)) (map snd items)).
      lia.
    + rewrite Hneg, E3. cbn [total foldr].
      fold (total (fun r => negatives ds r (labelled ds r)) (map snd items)).
      lia.
Qed.

Lemma enumerate_index ds :
  Forall (fun nr : nat * string => snd nr ∈ df_index (Y ds))
    (enumerate (df_index (Y ds))).
Proof.
  apply Forall_forall. intros [n r] Hin. cbn [snd].
  rewrite <- (enumerate_snd (df_index (Y ds))).
  apply list_elem_of_fmap. exists (n, r). auto.
Qed.

Lemma enumerate_length {A} (l : list A) : length (enumerate l) = length l.
Proof. unfold enumerate. rewrite length_zip_with, length_seq. lia. Qed.

(** [load] on a frame with ten or more RNAs. *)
Lemma load_gen ds g :
  10 <= length (df_index (Y ds)) ->
  match missing_key ds (df_index (Y ds)) with
  | Some key => load ds g = Raise (KeyError key)
  | None =>
      exists out bs,
        load ds g = Ok out
        /\ l_dataset out = (np_shuffle bs (np_seed (seed ds))).1
        /\ l_rng out = (np_shuffle bs (np_seed (seed ds))).2
        /\ Forall2 (batch_covers ds) (df_index (Y ds)) bs
        /\ l_num_batches out = length (df_index (Y ds))
        /\ l_num_pos out
           = total (fun r => positives ds r (labelled ds r)) (df_index (Y ds))
        /\ l_num_neg out
           = total (fun r => negatives ds r (labelled ds r)) (df_index (Y ds))
  end.
Proof.
  intros Hlen. unfold load.
  pose proof (load_loop_gen ds (enumerate (df_index (Y ds))) Hlen
                (enumerate_index ds) (mkLoad [] 0 0 0 0 g)) as Hloop.
  rewrite enumerate_snd in Hloop.
  destruct (missing_key ds (df_index (Y ds))); [rewrite Hloop; reflexivity|].
  destruct Hloop as (st' & bs & -> & Hds & Hcov & Hnb & Hpos & Hneg).
  cbn [dataset num_batches num_pos num_neg app Nat.add] in Hds, Hnb, Hpos, Hneg.
  cbn [mbind result_bind]. rewrite Hds.
  exists (mkLoaded (np_shuffle bs (np_seed (seed ds))).1 (num_pos st')
            (num_neg st') (num_batches st')
            (np_shuffle bs (np_seed (seed ds))).2), bs.
  cbn [l_dataset l_rng l_num_batches l_num_pos l_num_neg].
  rewrite enumerate_length in Hnb.
  split; [destruct (np_shuffle bs (np_seed (seed ds))); reflexivity|].
  repeat split; first [reflexivity | assumption].
Qed.

(** What a returned list is made of, with no condition on the frames. *)
Lemma load_returns ds g out :
  load ds g = Ok out ->
  exists bs,
    l_dataset out = (np_shuffle bs (np_seed (seed ds))).1
    /\ l_rng out = (np_shuffle bs (np_seed (seed ds))).2
    /\ Forall2 (batch_covers ds) (df_index (Y ds)) bs
    /\ l_num_batches out = length (df_index (Y ds))
    /\ l_num_pos out
       = total (fun r => positives ds r (labelled ds r)) (df_index (Y ds))
    /\ l_num_neg out
       = total (fun r => negatives ds r (labelled ds r)) (df_index (Y ds)).
Proof.
  intros Hout.
  destruct (Nat.lt_ge_cases (length (df_index (Y ds))) 10) as [Hlt|Hge].
  - destruct (df_index (Y ds)) as [|r rs] eqn:Hidx.
    + unfold load in Hout. rewrite Hidx in Hout. cbn in Hout.
      exists []. destruct (np_shuffle [] (np_seed (seed ds))) as [sh g'].
      injection Hout as <-. cbn. repeat split. constructor.
    + rewrite load_small in Hout; [discriminate|].
      rewrite Hidx in *. cbn [length] in *. lia.
  - pose proof (load_gen ds g Hge) as Hgen.
    destruct (missing_key ds (df_index (Y ds))); [congruence|].
    destruct Hgen as (out' & bs & Hrun & Hgen).
    assert (out' = out) as -> by congruence.
    exists bs. exact Hgen.
Qed.

Lemma load_returns_perm ds g out :
  load ds g = Ok out ->
  exists bs,
    Permutation (l_dataset out) bs
    /\ Forall2 (batch_covers ds) (df_index (Y ds)) bs
    /\ l_num_batches out = length (df_index (Y ds))
    /\ l_num_pos out
       = total (fun r => positives ds r (labelled ds r)) (df_index (Y ds))
    /\ l_num_neg out
       = total (fun r => negatives ds r (labelled ds r)) (df_index (Y ds)).
Proof.
  intros Hout. destruct (load_returns ds g out Hout) as (bs & Hds & _ & Hrest).
  exists bs. split; [|exact Hrest]. rewrite Hds. apply np_shuffle_perm.
Qed.

Lemma load_batch_origin ds g out b :
  load ds g = Ok out -> b ∈ l_dataset out ->
  exists rna order,
    rna ∈ df_index (Y ds)
    /\ Permutation order (labelled ds rna)
    /\ b = batch_of_order ds rna order.
Proof.
  intros Hout Hb.
  destruct (load_returns_perm ds g out Hout) as (bs & Hperm & Hcov & _).
  rewrite Hperm in Hb. apply list_elem_of_lookup in Hb as [k Hk].
  destruct (Forall2_lookup_r _ _ _ _ _ Hcov Hk) as (rna & Hrna & order & Hord & ->).
  exists rna, order. split; [|split; [assumption|reflexivity]].
  apply list_elem_of_lookup. exists k. exact Hrna.
Qed.

End GapFacts.

(** ** Which lookups [load] needs, and what it counts *)





Lemma filter_map_length (t : float -> bool) (f : string -> float) cs :
  length (filter (fun y => t y = true) (map f cs))
  = length (filter (fun c => t (f c) = true) cs).
Proof.
  induction cs as [|c cs IH]; [reflexivity|].
  cbn [map]. rewrite !filter_cons.
  destruct (decide (t (f c) = true)); cbn [length]; congruence.
Qed.

Lemma negatives_negb ds rna cs :
  length (filter (fun c => negb (0 <? df_cell (Y ds) c rna)%float = true) cs)
  = negatives ds rna cs.
Proof.
  unfold negatives. induction cs as [|c cs IH]; [reflexivity|].
  rewrite !filter_cons.
  destruct (0 <? df_cell (Y ds) c rna)%float; cbn [negb].
  - rewrite !decide_False by discriminate. exact IH.
  - rewrite !decide_True by reflexivity. cbn [length]. congruence.
Qed.

Lemma positives_perm ds rna l1 l2 :
  Permutation l1 l2 -> positives ds rna l1 = positives ds rna l2.
Proof. intros Hp. unfold positives. rewrite Hp. reflexivity. Qed.

Lemma negatives_perm ds rna l1 l2 :
  Permutation l1 l2 -> negatives ds rna l1 = negatives ds rna l2.
Proof. intros Hp. unfold negatives. rewrite Hp. reflexivity. Qed.

Lemma positives_negatives ds rna cs :
  positives ds rna cs + negatives ds rna cs = length cs.
Proof.
  unfold positives, negatives. induction cs as [|c cs IH]; [reflexivity|].
  rewrite !filter_cons.
  destruct (0 <? df_cell (Y ds) c rna)%float.
  - rewrite decide_True by reflexivity. rewrite decide_False by discriminate.
    cbn [length]. lia.
  - rewrite decide_False by discriminate. rewrite decide_True by reflexivity.
    cbn [length]. lia.
Qed.

Lemma count_labels_cons t b bs :
  count_labels t (b :: bs)
  = length (filter (fun y => t y = true) (batch_labels b)) + count_labels t bs.
Proof. reflexivity. Qed.

Lemma count_rows_cons b bs :
  count_rows (b :: bs) = length (batch_labels b) + count_rows bs.
Proof. reflexivity. Qed.

Lemma total_cons f r rs : total f (r :: rs) = f r + total f rs.
Proof. reflexivity. Qed.

Lemma count_labels_perm t bs1 bs2 :
  Permutation bs1 bs2 -> count_labels t bs1 = count_labels t bs2.
Proof. induction 1; rewrite ?count_labels_cons; lia. Qed.

Lemma count_rows_perm bs1 bs2 :
  Permutation bs1 bs2 -> count_rows bs1 = count_rows bs2.
Proof. induction 1; rewrite ?count_rows_cons; lia. Qed.

Lemma covers_counts ds rnas bs :
  Forall2 (batch_covers ds) rnas bs ->
  count_labels (fun y => (0 <? y)%float) bs
  = total (fun r => positives ds r (labelled ds r)) rnas
  /\ count_labels (fun y => negb (0 <? y)%float) bs
     = total (fun r => negatives ds r (labelled ds r)) rnas
  /\ count_rows bs
     = total (fun r => length (labelled ds r)) rnas.
Proof.
  induction 1 as [|rna b rnas bs (order & Hord & ->) _ (IH1 & IH2 & IH3)];
    [repeat split|].
  rewrite !count_labels_cons, count_rows_cons, !total_cons.
  unfold batch_labels, batch_of_order. cbn [snd].
  rewrite !filter_map_length, length_map, negatives_negb.
  fold (positives ds rna order).
  rewrite (positives_perm _ _ _ _ Hord), (negatives_perm _ _ _ _ Hord).
  rewrite (Permutation_length Hord). lia.
Qed.

Lemma total_plus (f g h : string -> nat) rs :
  (forall r, f r + g r = h r) -> total f rs + total g rs = total h rs.
Proof.
  intros Hfg. induction rs as [|r rs IH]; [reflexivity|].
  rewrite !total_cons. specialize (Hfg r). lia.
Qed.

Section LoadExtras.
Context `{NumpyRandom}.


(** X2. Whenever [load] returns, the number of positives it reports is the
    number of labels above zero in the returned batches, the number of
    negatives is the number of all their other labels (zero and negative
    ones alike, a label not being checked to be 0 or 1), the two add up
    to the number of rows of the batches, and the number of batches it
    reports is the length of the list. *)
Theorem load_counts_returned_labels ds g out :
  unique_labels (Y ds) ->
  load ds g = Ok out ->
  l_num_pos out = count_labels (fun y => (0 <? y)%float) (l_dataset out)
  /\ l_num_neg out
     = count_labels (fun y => negb (0 <? y)%float) (l_dataset out)
  /\ l_num_pos out + l_num_neg out = count_rows (l_dataset out)
  /\ l_num_batches out = length (l_dataset out).
Proof.
  intros _ Hout.
  destruct (load_returns_perm ds g out Hout)
    as (bs & Hperm & Hcov & Hnb & Hpos & Hneg).
  destruct (covers_counts _ _ _ Hcov) as (Hc1 & Hc2 & Hc3).
  rewrite (count_labels_perm _ _ _ Hperm), (count_labels_perm _ _ _ Hperm),
    (count_rows_perm _ _ Hperm), (Permutation_length Hperm).
  rewrite Hpos, Hneg, Hnb, Hc1, Hc2, Hc3.
  repeat split.
  - apply total_plus. intros r. apply positives_negatives.
  - eapply Forall2_length, Hcov.
Qed.

(** X3. Whenever [load] returns, each batch of its list has as many
    protein rows as RNA rows as labels, every protein row has one entry
    per attribute of the protein frame and every RNA row one entry per
    attribute of the RNA frame. *)
Theorem load_batch_shapes ds g out :
  unique_labels (Y ds) ->
  load ds g = Ok out ->
  Forall (fun b : Batch =>
            length b.1.1 = length b.2
            /\ length b.1.2 = length b.2
            /\ Forall (fun r : row => length r = shape0 (Fp ds)) b.1.1
            /\ Forall (fun r : row => length r = shape0 (Fr ds)) b.1.2)
    (l_dataset out).
Proof.
  intros _ Hout. apply Forall_forall. intros b Hb.
  destruct (load_batch_origin ds g out b Hout Hb)
    as (rna & order & _ & _ & ->).
  unfold batch_of_order. cbn [fst snd]. rewrite !length_map.
  repeat split; apply Forall_fmap, Forall_forall; intros c _;
    cbn; unfold features, shape0; apply length_map.
Qed.

(** X4. Whenever [load] returns, no label of a returned batch is NaN, and
    all the rows of a batch belong to one RNA of the interaction frame:
    every RNA row of the batch is the feature column of that RNA, and
    every label is the cell of that RNA for a protein of the frame. *)
Theorem load_batch_one_rna ds g out :
  unique_labels (Y ds) ->
  load ds g = Ok out ->
  Forall (fun b : Batch =>
            Forall (fun y => is_nan y = false) b.2
            /\ exists rna,
                 rna ∈ df_index (Y ds)
                 /\ Forall (fun r : row => r = features (Fr ds) rna) b.1.2
                 /\ Forall (fun y => exists c, c ∈ df_columns (Y ds)
                                               /\ y = df_cell (Y ds) c rna)
                      b.2)
    (l_dataset out).
Proof.
  intros _ Hout. apply Forall_forall. intros b Hb.
  destruct (load_batch_origin ds g out b Hout Hb)
    as (rna & order & Hrna & Hord & ->).
  unfold batch_of_order. cbn [fst snd].
  assert (forall c, c ∈ order ->
            c ∈ df_columns (Y ds) /\ is_nan (df_cell (Y ds) c rna) = false)
    as Hlab.
  { intros c Hc. rewrite Hord in Hc. apply labelled_spec, Hc. }
  split; [|exists rna; split; [exact Hrna|split]].
  - apply Forall_fmap, Forall_forall. intros c Hc. apply Hlab, Hc.
  - apply Forall_fmap, Forall_forall. intros c _. reflexivity.
  - apply Forall_fmap, Forall_forall. intros c Hc. exists c.
    split; [apply Hlab, Hc | reflexivity].
Qed.

(** X5. Whenever [load] returns, its list is the batches of the RNAs,
    taken in the order of the interaction frame's index, as
    [np.random.shuffle] reorders them starting from the state that
    [np.random.seed(self.seed)] sets: the state in which the generator
    was left by the draws of the row orders plays no part in the order
    of the batches, and the generator is left in the state after that
    one shuffle. *)
Theorem load_shuffles_from_seed ds g out :
  unique_labels (Y ds) ->
  load ds g = Ok out ->
  exists bs,
    Forall2 (batch_covers ds) (df_index (Y ds)) bs
    /\ l_dataset out = (np_shuffle bs (np_seed (seed ds))).1
    /\ l_rng out = (np_shuffle bs (np_seed (seed ds))).2.
Proof.
  intros _ Hout.
  destruct (load_returns ds g out Hout) as (bs & Hds & Hrng & Hcov & _).
  exists bs. repeat split; assumption.
Qed.

End LoadExtras.

(** ** Restricting the proteins to predict *)

Lemma df_select_ok df cs :
  Forall (fun c => c ∈ df_columns df) cs ->
  df_select df cs = Ok (mkDataFrame (df_index df) cs (df_cell df)).
Proof.
  intros Hcs. unfold df_select.
  assert (exists ss, mapM' (df_getitem df) cs = Ok ss) as [ss ->];
    [|reflexivity].
  induction Hcs as [|c cs Hc _ [ss IH]]; [exists []; reflexivity|].
  cbn [mapM']. rewrite (df_getitem_features _ _ Hc), IH.
  eexists. reflexivity.
Qed.

Lemma df_select_missing df cs e :
  df_select df cs = Raise e ->
  exists key, e = KeyError key /\ key ∈ cs /\ key ∉ df_columns df.
Proof.
  unfold df_select.
  destruct (mapM' (df_getitem df) cs) as [ss|e'] eqn:Hm; [discriminate|].
  cbn. intros [= <-]. revert e' Hm.
  induction cs as [|c cs IH]; intros e' Hm; [discriminate|].
  cbn [mapM'] in Hm.
  destruct (decide (c ∈ df_columns df)) as [Hc|Hc].
  - rewrite (df_getitem_features _ _ Hc) in Hm. cbn [mbind result_bind] in Hm.
    destruct (mapM' (df_getitem df) cs) as [ss|e''] eqn:Hm'; [discriminate|].
    cbn in Hm. injection Hm as <-.
    destruct (IH e'' eq_refl) as (key & -> & Hin & Hout).
    exists key. split; [reflexivity|]. split; [|exact Hout].
    apply elem_of_cons. auto.
  - rewrite (df_getitem_missing _ _ Hc) in Hm.
    cbn in Hm. injection Hm as <-. exists c.
    split; [reflexivity|]. split; [|exact Hc]. apply elem_of_cons. auto.
Qed.

Lemma df_select_ok_inv df cs df' :
  df_select df cs = Ok df' -> Forall (fun c => c ∈ df_columns df) cs.
Proof.
  unfold df_select.
  destruct (mapM' (df_getitem df) cs) as [ss|e] eqn:Hm; [|discriminate].
  intros _. revert ss Hm.
  induction cs as [|c cs IH]; intros ss Hm; [constructor|].
  cbn [mapM'] in Hm.
  destruct (decide (c ∈ df_columns df)) as [Hc|Hc].
  - rewrite (df_getitem_features _ _ Hc) in Hm. cbn [mbind result_bind] in Hm.
    destruct (mapM' (df_getitem df) cs) as [ss'|e] eqn:Hm'; [|discriminate].
    constructor; [exact Hc | eapply IH; reflexivity].
  - rewrite (df_getitem_missing _ _ Hc) in Hm. discriminate.
Qed.

(** X6. With a restriction list, the constructor of [PredictDataset]
    succeeds exactly when every listed protein is a column of the protein
    frame; it then keeps the RNA frame, and its protein frame has the
    listed columns in the listed order, with the cells and the attribute
    index of the original.  Otherwise it raises [KeyError] for a listed
    protein that is no column, and nothing else. *)
Theorem PredictDataset_init_restricted fp fr cs :
  (is_ok (PredictDataset_init fp fr (Some cs))
   <-> Forall (fun c => c ∈ df_columns fp) cs)
  /\ (forall ds, PredictDataset_init fp fr (Some cs) = Ok ds ->
        df_columns (pFp ds) = cs
        /\ df_index (pFp ds) = df_index fp
        /\ (forall c, features (pFp ds) c = features fp c)
        /\ pFr ds = fr)
  /\ (forall e, PredictDataset_init fp fr (Some cs) = Raise e ->
        exists key, e = KeyError key /\ key ∈ cs /\ key ∉ df_columns fp).
Proof.
  unfold PredictDataset_init. split; [|split].
  - split.
    + intros [ds Hds].
      destruct (df_select fp cs) as [fp'|e] eqn:Hsel; [|discriminate].
      eapply df_select_ok_inv, Hsel.
    + intros Hcs. rewrite (df_select_ok _ _ Hcs). eexists. reflexivity.
  - intros ds Hds.
    destruct (df_select fp cs) as [fp'|e] eqn:Hsel; [|discriminate].
    rewrite (df_select_ok _ _ (df_select_ok_inv _ _ _ Hsel)) in Hsel.
    injection Hsel as <-. cbn in Hds. injection Hds as <-.
    repeat split.
  - intros e He.
    destruct (df_select fp cs) as [fp'|e'] eqn:Hsel; [discriminate|].
    cbn in He. injection He as <-. eapply df_select_missing, Hsel.
Qed.

Lemma predict_load_explicit ds :
  predict_load ds
  = Ok (map (fun pr => features (pFp ds) pr.1)
          (cross_join (df_columns (pFp ds)) (df_columns (pFr ds))),
        map fst (cross_join (df_columns (pFp ds)) (df_columns (pFr ds))),
        map (fun pr => features (pFr ds) pr.2)
          (cross_join (df_columns (pFp ds)) (df_columns (pFr ds))),
        map snd (cross_join (df_columns (pFp ds)) (df_columns (pFr ds)))).
Proof.
  unfold predict_load, np_zeros, shape1.
  pose proof (cross_protein_loop ds
    (replicate (shape0 (pFp ds)) 0%float)
    (replicate (shape0 (pFr ds)) 0%float) (df_columns (pFp ds))
    ltac:(apply Forall_forall; auto) [] [] [] [] 0 eq_refl) as Hloop.
  rewrite Nat.add_0_r in Hloop. cbn [app length Nat.add] in Hloop.
  rewrite Hloop. cbn [mbind result_bind c_p c_r c_p_names c_r_names].
  rewrite !app_nil_r. reflexivity.
Qed.

(** X7. Restricting the prediction to a list of proteins returns, for each
    listed protein in the listed order, the block of rows that the
    unrestricted [load] returns for that protein: for the protein at
    place [i] of the list and place [i'] of the protein frame, row
    [i * r + j] of each of the four restricted arrays is row
    [i' * r + j] of the unrestricted one, [r] being the number of RNAs. *)
Theorem predict_restriction_keeps_blocks fp fr cs :
  NoDup (df_columns fp) -> NoDup (df_columns fr) -> NoDup cs ->
  Forall (fun c => c ∈ df_columns fp) cs ->
  exists p0 pn0 r0 rn0 p pn r rn,
    (PredictDataset_init fp fr None ≫= predict_load) = Ok (p0, pn0, r0, rn0)
    /\ (PredictDataset_init fp fr (Some cs) ≫= predict_load)
       = Ok (p, pn, r, rn)
    /\ forall i i' j c,
         cs !! i = Some c -> df_columns fp !! i' = Some c ->
         j < length (df_columns fr) ->
         is_Some (p !! (i * length (df_columns fr) + j))
         /\ p !! (i * length (df_columns fr) + j)
            = p0 !! (i' * length (df_columns fr) + j)
         /\ pn !! (i * length (df_columns fr) + j)
            = pn0 !! (i' * length (df_columns fr) + j)
         /\ r !! (i * length (df_columns fr) + j)
            = r0 !! (i' * length (df_columns fr) + j)
         /\ rn !! (i * length (df_columns fr) + j)
            = rn0 !! (i' * length (df_columns fr) + j).
Proof.
  intros _ _ _ Hcs. unfold PredictDataset_init.
  rewrite (df_select_ok _ _ Hcs). cbn [mbind result_bind].
  rewrite !predict_load_explicit. cbn [pFp pFr df_columns df_index df_cell].
  eexists _, _, _, _, _, _, _, _. split; [reflexivity|].
  split; [reflexivity|].
  intros i i' j c Hi Hi' Hj.
  apply lookup_lt_is_Some in Hj as [rj Hj].
  rewrite !list_lookup_fmap.
  rewrite (cross_join_lookup _ _ _ _ _ _ Hi Hj),
    (cross_join_lookup _ _ _ _ _ _ Hi' Hj).
  cbn. repeat split. eexists. reflexivity.
Qed.

Lemma predict_restriction_keeps_blocks_witness :
  NoDup (df_columns ex_Fp) /\ NoDup (df_columns ex_Fr3) /\ NoDup ["P2"]
  /\ Forall (fun c => c ∈ df_columns ex_Fp) ["P2"]
  /\ exists p0 pn0 r0 rn0 p pn r rn,
       (PredictDataset_init ex_Fp ex_Fr3 None ≫= predict_load)
       = Ok (p0, pn0, r0, rn0)
       /\ (PredictDataset_init ex_Fp ex_Fr3 (Some ["P2"]) ≫= predict_load)
          = Ok (p, pn, r, rn)
       /\ forall i i' j c,
            ["P2"] !! i = Some c -> df_columns ex_Fp !! i' = Some c ->
            j < length (df_columns ex_Fr3) ->
            is_Some (p !! (i * length (df_columns ex_Fr3) + j))
            /\ p !! (i * length (df_columns ex_Fr3) + j)
               = p0 !! (i' * length (df_columns ex_Fr3) + j)
            /\ pn !! (i * length (df_columns ex_Fr3) + j)
               = pn0 !! (i' * length (df_columns ex_Fr3) + j)
            /\ r !! (i * length (df_columns ex_Fr3) + j)
               = r0 !! (i' * length (df_columns ex_Fr3) + j)
            /\ rn !! (i * length (df_columns ex_Fr3) + j)
               = rn0 !! (i' * length (df_columns ex_Fr3) + j).
Proof.
  assert (NoDup (df_columns ex_Fp)) as H1 by by_computation.
  assert (NoDup (df_columns ex_Fr3)) as H2 by by_computation.
  assert (NoDup ["P2"]) as H3 by by_computation.
  assert (Forall (fun c => c ∈ df_columns ex_Fp) ["P2"]) as H4
    by by_computation.
  split; [exact H1|]. split; [exact H2|]. split; [exact H3|].
  split; [exact H4|].
  exact (predict_restriction_keeps_blocks ex_Fp ex_Fr3 ["P2"] H1 H2 H3 H4).
Defined.

(** ** The further statements on the example frames *)

Lemma ex_loaded_ok : load (H := reversing_random) ex_train 0%Z = Ok ex_loaded.
Proof. vm_compute. reflexivity. Qed.


Lemma load_counts_returned_labels_witness :
  unique_labels (Y ex_train)
  /\ load (H := reversing_random) ex_train 0%Z = Ok ex_loaded
  /\ l_num_pos ex_loaded
     = count_labels (fun y => (0 <? y)%float) (l_dataset ex_loaded)
  /\ l_num_neg ex_loaded
     = count_labels (fun y => negb (0 <? y)%float) (l_dataset ex_loaded)
  /\ l_num_pos ex_loaded + l_num_neg ex_loaded
     = count_rows (l_dataset ex_loaded)
  /\ l_num_batches ex_loaded = length (l_dataset ex_loaded).
Proof.
  split; [exact ex_train_unique|]. split; [exact ex_loaded_ok|].
  exact (load_counts_returned_labels (H := reversing_random) ex_train 0%Z
           ex_loaded ex_train_unique ex_loaded_ok).
Defined.

Lemma load_batch_shapes_witness :
  unique_labels (Y ex_train)
  /\ load (H := reversing_random) ex_train 0%Z = Ok ex_loaded
  /\ Forall (fun b : Batch =>
               length b.1.1 = length b.2
               /\ length b.1.2 = length b.2
               /\ Forall (fun r : row => length r = shape0 (Fp ex_train)) b.1.1
               /\ Forall (fun r : row => length r = shape0 (Fr ex_train)) b.1.2)
       (l_dataset ex_loaded).
Proof.
  split; [exact ex_train_unique|]. split; [exact ex_loaded_ok|].
  exact (load_batch_shapes (H := reversing_random) ex_train 0%Z
           ex_loaded ex_train_unique ex_loaded_ok).
Defined.

Lemma load_batch_one_rna_witness :
  unique_labels (Y ex_train)
  /\ load (H := reversing_random) ex_train 0%Z = Ok ex_loaded
  /\ Forall (fun b : Batch =>
               Forall (fun y => is_nan y = false) b.2
               /\ exists rna,
                    rna ∈ df_index (Y ex_train)
                    /\ Forall (fun r : row => r = features (Fr ex_train) rna)
                         b.1.2
                    /\ Forall (fun y => exists c,
                                 c ∈ df_columns (Y ex_train)
                                 /\ y = df_cell (Y ex_train) c rna) b.2)
       (l_dataset ex_loaded).
Proof.
  split; [exact ex_train_unique|]. split; [exact ex_loaded_ok|].
  exact (load_batch_one_rna (H := reversing_random) ex_train 0%Z
           ex_loaded ex_train_unique ex_loaded_ok).
Defined.

Lemma load_shuffles_from_seed_witness :
  unique_labels (Y ex_train)
  /\ load (H := reversing_random) ex_train 0%Z = Ok ex_loaded
  /\ exists bs,
       Forall2 (batch_covers ex_train) (df_index (Y ex_train)) bs
       /\ l_dataset ex_loaded
          = (np_shuffle (NumpyRandom := reversing_random) bs
               (np_seed (seed ex_train))).1
       /\ l_rng ex_loaded
          = (np_shuffle (NumpyRandom := reversing_random) bs
               (np_seed (seed ex_train))).2.
Proof.
  split; [exact ex_train_unique|]. split; [exact ex_loaded_ok|].
  exact (load_shuffles_from_seed (H := reversing_random) ex_train 0%Z
           ex_loaded ex_train_unique ex_loaded_ok).
Defined.

(** * Further properties of the factorization model *)

Open Scope R_scope.

(** ** The initial tensors *)

Section InitExtras.
Context `{NumpyRand}.

Lemma rand_vec_length k g : length (rand_vec k g).1 = k.
Proof.
  revert g. induction k as [|k IH]; intros g; cbn [rand_vec]; [reflexivity|].
  destruct (random_sample g) as [u g1]. specialize (IH g1).
  destruct (rand_vec k g1) as [us g2]. cbn [fst length] in *. congruence.
Qed.

Lemma rand_mat_shape rows cols g :
  length (rand_mat rows cols g).1 = rows
  /\ Forall (fun r : vec => length r = cols) (rand_mat rows cols g).1.
Proof.
  revert g. induction rows as [|rows IH]; intros g; cbn [rand_mat].
  - split; [reflexivity | constructor].
  - pose proof (rand_vec_length cols g) as Hr.
    destruct (rand_vec cols g) as [r g1]. destruct (IH g1) as [IH1 IH2].
    destruct (rand_mat rows cols g1) as [rs g2]. cbn [fst length] in *.
    split; [congruence | constructor; assumption].
Qed.

Lemma rand_vec_app a b g :
  rand_vec (a + b) g
  = ((rand_vec a g).1 ++ (rand_vec b (rand_vec a g).2).1,
     (rand_vec b (rand_vec a g).2).2).
Proof.
  revert g. induction a as [|a IH]; intros g; cbn [Nat.add rand_vec].
  - cbn. destruct (rand_vec b g). reflexivity.
  - destruct (random_sample g) as [u g1]. rewrite IH.
    destruct (rand_vec a g1) as [us g2]. cbn [fst snd].
    destruct (rand_vec b g2) as [vs g3]. reflexivity.
Qed.

Lemma rand_mat_stream rows cols g :
  (concat (rand_mat rows cols g).1, (rand_mat rows cols g).2)
  = rand_vec (rows * cols) g.
Proof.
  revert g. induction rows as [|rows IH]; intros g;
    cbn [Nat.mul rand_mat]; [reflexivity|].
  rewrite rand_vec_app. destruct (rand_vec cols g) as [r g1].
  cbn [fst snd]. rewrite <- IH.
  destruct (rand_mat rows cols g1) as [rs g2]. reflexivity.
Qed.

(** X8. The constructor gives the five tensors the shapes that the latent
    sizes and feature counts ask for: [Ap] has [sp] rows of [n] entries,
    [bp] has [sp] entries, [Ar] has [sr] rows of [m] entries, [br] has
    [sr] entries and [B] has [sp] rows of [sr] entries; the learning rate
    and the regularization weight are stored as given. *)
Theorem Model_init_shapes n m sp sr irange lr lam seed g0 :
  let mdl := (Model_init n m sp sr irange lr lam seed g0).1 in
  let th := get_params mdl in
  (length (Ap th) = sp /\ Forall (fun r : vec => length r = n) (Ap th))
  /\ length (bp th) = sp
  /\ (length (Ar th) = sr /\ Forall (fun r : vec => length r = m) (Ar th))
  /\ length (br th) = sr
  /\ (length (B th) = sp /\ Forall (fun r : vec => length r = sr) (B th))
  /\ learning_rate mdl = lr /\ lambda_reg mdl = lam.
Proof.
  unfold Model_init, get_params.
  pose proof (rand_mat_shape sp n (seeded seed)) as [A1 A2].
  destruct (rand_mat sp n (seeded seed)) as [uAp g1].
  pose proof (rand_vec_length sp g1) as A3.
  destruct (rand_vec sp g1) as [ubp g2].
  pose proof (rand_mat_shape sr m g2) as [A4 A5].
  destruct (rand_mat sr m g2) as [uAr g3].
  pose proof (rand_vec_length sr g3) as A6.
  destruct (rand_vec sr g3) as [ubr g4].
  pose proof (rand_mat_shape sp sr g4) as [A7 A8].
  destruct (rand_mat sp sr g4) as [uB g5].
  cbn [fst params Ap bp Ar br B learning_rate lambda_reg] in *.
  rewrite !length_map.
  assert (forall k (M : mat), Forall (fun r : vec => length r = k) M ->
            Forall (fun r : vec => length r = k)
              (map (map (init_entry irange)) M)) as Hmap.
  { intros k M HM. apply Forall_fmap. eapply Forall_impl; [exact HM|].
    intros r Hr. cbn. rewrite length_map. exact Hr. }
  repeat split; auto.
Qed.

(** X9. The constructor fills the tensors from one stream of draws that
    starts at the seeded state: read in the order [Ap], [bp], [Ar], [br],
    [B], each matrix row by row, the entries are [(.5 - u) * irange] for
    the first [sp*n + sp + sr*m + sr + sp*sr] draws [u] in order, and the
    generator is left in the state after exactly that many draws. *)
Theorem Model_init_stream n m sp sr irange lr lam seed g0 :
  let draws :=
    rand_vec (sp * n + (sp + (sr * m + (sr + sp * sr))))%nat (seeded seed) in
  entries (get_params (Model_init n m sp sr irange lr lam seed g0).1)
  = map (init_entry irange) draws.1
  /\ (Model_init n m sp sr irange lr lam seed g0).2 = draws.2.
Proof.
  cbv zeta. rewrite !rand_vec_app. unfold Model_init, get_params, entries.
  rewrite <- !rand_mat_stream. cbn [fst snd].
  destruct (rand_mat sp n (seeded seed)) as [uAp g1].
  cbn [fst snd].
  destruct (rand_vec sp g1) as [ubp g2]. cbn [fst snd].
  destruct (rand_mat sr m g2) as [uAr g3]. cbn [fst snd].
  destruct (rand_vec sr g3) as [ubr g4]. cbn [fst snd].
  destruct (rand_mat sp sr g4) as [uB g5].
  cbn [fst snd params Ap bp Ar br B].
  split; [|reflexivity].
  rewrite !map_app, !concat_map. reflexivity.
Qed.

End InitExtras.

(** ** Training keeps the shapes *)

Lemma sgd_vec_length lr (v : vec) (F : nat -> R -> R) :
  length (sgd_vec lr v (imap F v)) = length v.
Proof.
  unfold sgd_vec. rewrite length_zip_with, length_map, length_imap. lia.
Qed.

Lemma sgd_mat_shape lr (M : mat) (F : nat -> nat -> R -> R) :
  map length (sgd_mat lr M (imap (fun i => imap (F i)) M)) = map length M.
Proof.
  apply list_eq. intros i. unfold sgd_mat.
  rewrite !list_lookup_fmap, lookup_zip_with, list_lookup_imap.
  destruct (M !! i) as [r|]; [|reflexivity].
  cbn. f_equal. apply sgd_vec_length.
Qed.

Section TrainExtras.
Context `{Autodiff}.

Lemma updates_shape lr lam th Fp Fr y :
  shape (updates lr lam th Fp Fr y) = shape th.
Proof.
  unfold shape, updates, T_grad. cbn [Ap bp Ar br B].
  rewrite !sgd_mat_shape, !sgd_vec_length. reflexivity.
Qed.

(** X10. A [train] call changes no shape: after any number of calls, on
    any batches, each of the five tensors has the row count and row
    lengths it had before, and the learning rate and the regularization
    weight are the same. *)
Theorem train_all_keeps_shapes mdl batches :
  shape (get_params (train_all mdl batches)) = shape (get_params mdl)
  /\ learning_rate (train_all mdl batches) = learning_rate mdl
  /\ lambda_reg (train_all mdl batches) = lambda_reg mdl.
Proof.
  unfold train_all. revert mdl.
  induction batches as [|[[Fp Fr] y] batches IH]; intros mdl;
    [repeat split|].
  cbn [foldl]. destruct (IH (train mdl Fp Fr y).2) as (IH1 & IH2 & IH3).
  rewrite IH1, IH2, IH3, train_params. unfold get_params, with_params.
  cbn [params learning_rate lambda_reg].
  rewrite updates_shape. repeat split.
Qed.

End TrainExtras.

(** ** Predictions are made pair by pair *)


(** ** The regularization term *)

Lemma T_sum_squares_nonneg (v : vec) : 0 <= T_sum (map Rsqr v).
Proof.
  induction v as [|x v IH]; cbn [map T_sum foldr]; [lra|].
  fold (T_sum (map Rsqr v)). pose proof (Rle_0_sqr x). lra.
Qed.

Lemma norm2_nonneg (v : vec) : 0 <= norm2 v.
Proof. apply sqrt_pos. Qed.

Lemma norm2_zero (v : vec) : norm2 v = 0 <-> Forall (fun x => x = 0) v.
Proof.
  unfold norm2. split.
  - intros Hz. apply sqrt_eq_0 in Hz; [|apply T_sum_squares_nonneg].
    induction v as [|x v IH]; [constructor|].
    cbn [map T_sum foldr] in Hz. fold (T_sum (map Rsqr v)) in Hz.
    pose proof (Rle_0_sqr x) as Hx.
    pose proof (T_sum_squares_nonneg v) as Hv.
    constructor.
    + apply Rsqr_0_uniq. lra.
    + apply IH. lra.
  - intros Hall. replace (T_sum (map Rsqr v)) with 0; [apply sqrt_0|].
    induction Hall as [|x v -> _ IH]; [reflexivity|].
    cbn [map T_sum foldr]. fold (T_sum (map Rsqr v)).
    rewrite <- IH, Rsqr_0. lra.
Qed.

(** X12. When each of the three groups has at least one entry, the
    regularization term is never negative, and it is zero exactly when
    every entry of every tensor is zero; so with a positive
    [lambda_reg] the cost is above the mean squared error unless all
    parameters are zero, and never below it for [lambda_reg >= 0]. *)
Theorem regularization_zero_iff th :
  (0 < count (group_proteins th))%nat ->
  (0 < count (group_rnas th))%nat ->
  (0 < count (group_B th))%nat ->
  0 <= regularization th
  /\ (regularization th = 0 <-> Forall (fun x => x = 0) (entries th))
  /\ (forall lam Fp Fr y,
        0 <= lam -> cost_ th Fp Fr y <= cost lam th Fp Fr y)
  /\ (forall lam Fp Fr y,
        0 < lam -> ~ Forall (fun x => x = 0) (entries th) ->
        cost_ th Fp Fr y < cost lam th Fp Fr y).
Proof.
  unfold count, group_proteins, group_rnas, group_B.
  cbn [concat]. rewrite !app_nil_r, !length_app. intros Hp Hr HB.
  apply lt_0_INR in Hp, Hr, HB.
  pose proof (norm2_nonneg (concat (Ap th))) as N1.
  pose proof (norm2_nonneg (bp th)) as N2.
  pose proof (norm2_nonneg (concat (Ar th))) as N3.
  pose proof (norm2_nonneg (br th)) as N4.
  pose proof (norm2_nonneg (concat (B th))) as N5.
  assert (forall a k, 0 <= a -> 0 < k -> 0 <= a / k /\ (a / k = 0 -> a = 0))
    as Hdiv.
  { intros a k Ha Hk. split.
    - apply Rmult_le_pos; [exact Ha|]. left. apply Rinv_0_lt_compat, Hk.
    - intros Hz. apply (Rmult_eq_compat_r k) in Hz.
      unfold Rdiv in Hz. rewrite Rmult_assoc, Rinv_l in Hz by lra. lra. }
  destruct (Hdiv (norm2 (concat (Ap th)) + norm2 (bp th)) _ ltac:(lra) Hp)
    as [D1 Z1].
  destruct (Hdiv (norm2 (concat (Ar th)) + norm2 (br th)) _ ltac:(lra) Hr)
    as [D2 Z2].
  destruct (Hdiv (norm2 (concat (B th))) _ N5 HB) as [D3 Z3].
  assert (0 <= regularization th) as Hnonneg
    by (unfold regularization; cbv zeta; rewrite <- !length_app in *; lra).
  assert (regularization th = 0 <-> Forall (fun x => x = 0) (entries th))
    as Hzero.
  { unfold entries. rewrite !Forall_app, <- !norm2_zero. split.
    - intros Hz. unfold regularization in Hz. cbv zeta in Hz.
      assert (norm2 (concat (Ap th)) + norm2 (bp th) = 0) by (apply Z1; lra).
      assert (norm2 (concat (Ar th)) + norm2 (br th) = 0) by (apply Z2; lra).
      assert (norm2 (concat (B th)) = 0) by (apply Z3; lra).
      repeat split; lra.
    - intros (E1 & E2 & E3 & E4 & E5). unfold regularization. cbv zeta.
      rewrite E1, E2, E3, E4, E5. unfold Rdiv. lra. }
  split; [exact Hnonneg|]. split; [exact Hzero|]. split.
  - intros lam Fp Fr y Hlam. unfold cost.
    pose proof (Rmult_le_pos _ _ Hlam Hnonneg). lra.
  - intros lam Fp Fr y Hlam Hnz. unfold cost.
    assert (0 < regularization th) as Hpos.
    { destruct Hnonneg as [Hlt|Heq]; [exact Hlt|].
      exfalso. apply Hnz, Hzero. symmetry. exact Heq. }
    pose proof (Rmult_lt_0_compat _ _ Hlam Hpos). lra.
Qed.

(** ** The forward pass, entry by entry *)

Lemma map_nth_seq_R (r : vec) :
  map (fun j => nth j r 0) (seq 0 (length r)) = r.
Proof.
  induction r as [|x r IH]; [reflexivity|].
  cbn [length seq map nth]. f_equal.
  rewrite <- seq_shift, map_map. exact IH.
Qed.

Lemma width_rect (M : mat) n :
  M <> [] -> Forall (fun r : vec => length r = n) M -> width M = n.
Proof. intros HM Hrect. destruct M; [congruence|]. inversion Hrect; auto. Qed.

Lemma transpose_length (M : mat) : length (transpose M) = width M.
Proof. unfold transpose. rewrite length_map, length_seq. reflexivity. Qed.

Lemma transpose_width (M : mat) :
  (0 < width M)%nat -> width (transpose M) = length M.
Proof.
  intros Hw. unfold transpose. destruct (width M) as [|w]; [lia|].
  cbn [seq map width]. apply length_map.
Qed.

Lemma transpose_involutive (M : mat) n :
  (0 < n)%nat -> Forall (fun r : vec => length r = n) M ->
  transpose (transpose M) = M.
Proof.
  intros Hn Hrect. destruct (decide (M = [])) as [->|HM]; [reflexivity|].
  pose proof (width_rect M n HM Hrect) as Hw.
  unfold transpose at 1. rewrite transpose_width by lia.
  apply list_eq. intros i. rewrite list_lookup_fmap.
  destruct (M !! i) as [r|] eqn:Hi.
  - rewrite (lookup_seq_lt 0 (length M) i) by (eapply lookup_lt_Some, Hi).
    cbn. f_equal. unfold transpose. rewrite Hw, map_map.
    assert (length r = n) as Hr
      by (eapply Forall_lookup_1 in Hrect; eauto).
    transitivity (map (fun j => nth j r 0) (seq 0 n));
      [|rewrite <- Hr; apply map_nth_seq_R].
    apply map_ext. intros j.
    assert (nth j (@nil R) 0 = 0) as Hnil by (destruct j; reflexivity).
    rewrite <- Hnil at 1.
    rewrite (map_nth (fun r : vec => nth j r 0) M [] i).
    f_equal. apply nth_lookup_Some with (d := []) in Hi. exact Hi.
  - rewrite lookup_seq_ge; [reflexivity|]. eapply lookup_ge_None, Hi.
Qed.

Lemma sigmoid_add_rows (f : vec -> R) (A : mat) (b : vec) :
  map sigmoid (zip_with Rplus (map f A) b)
  = zip_with (fun a bj => sigmoid (f a + bj)) A b.
Proof.
  revert b. induction A as [|a A IH]; intros [|bj b]; try reflexivity.
  cbn [map zip_with]. rewrite IH. reflexivity.
Qed.

(** X13. For projection matrices whose rows all have the length of the
    feature vectors ([n] and [m], both positive), the latent vector of
    each example is computed from its own features alone: its entry [j]
    is the sigmoid of the inner product of the features with row [j] of
    [Ap] (of [Ar] for an RNA) plus entry [j] of [bp] (of [br]). *)
Theorem latent_entrywise th Fp Fr n m :
  (0 < n)%nat -> (0 < m)%nat ->
  Forall (fun r : vec => length r = n) (Ap th) ->
  Forall (fun r : vec => length r = m) (Ar th) ->
  latent_P th Fp = map (latent_row (Ap th) (bp th)) Fp
  /\ latent_R th Fr = map (latent_row (Ar th) (br th)) Fr.
Proof.
  intros Hn Hm HAp HAr. unfold latent_P, latent_R, T_dot, add_row.
  rewrite (transpose_involutive _ n Hn HAp),
    (transpose_involutive _ m Hm HAr).
  rewrite !map_map. split; apply map_ext; intros f;
    apply (sigmoid_add_rows (fun w => T_sum (zip_with Rmult f w))).
Qed.

(** The columns [0 .. n-1] of a matrix. *)
Lemma transpose_cols (M : mat) :
  transpose M = map (fun j => map (fun r => nth j r 0) M) (seq 0 (width M)).
Proof. reflexivity. Qed.

Lemma T_sum_zeros (l : list nat) (r : vec) :
  T_sum (zip_with Rmult (map (fun _ => 0) l) r) = 0.
Proof.
  revert r. induction l as [|c l IH]; intros [|x r]; try reflexivity.
  cbn [map zip_with T_sum foldr]. fold (T_sum (zip_with Rmult (map (fun _ => 0) l) r)).
  rewrite IH. lra.
Qed.

Lemma T_sum_linear (k : R) (u v : nat -> R) (l : list nat) (r : vec) :
  T_sum (zip_with Rmult (map (fun c => k * u c + v c) l) r)
  = k * T_sum (zip_with Rmult (map u l) r)
    + T_sum (zip_with Rmult (map v l) r).
Proof.
  revert r. induction l as [|c l IH]; intros [|x r];
    cbn [map zip_with T_sum foldr]; try lra.
  fold (T_sum (zip_with Rmult (map (fun c => k * u c + v c) l) r)).
  fold (T_sum (zip_with Rmult (map u l) r)).
  fold (T_sum (zip_with Rmult (map v l) r)).
  rewrite IH. lra.
Qed.

Lemma inner_nil_r (p : vec) : T_sum (zip_with Rmult p []) = 0.
Proof. destruct p; reflexivity. Qed.

Lemma score_bilinear (n : nat) (B : mat) (r : vec) :
  Forall (fun row : vec => length row = n) B ->
  forall p : vec,
    T_sum (zip_with Rmult
             (map (fun j => T_sum (zip_with Rmult p
                                     (map (fun row => nth j row 0) B)))
                (seq 0 n)) r)
    = bilinear p B r.
Proof.
  unfold bilinear, inner. induction 1 as [|b B Hb HB IH]; intros p.
  - cbn [map]. rewrite (map_ext _ (fun _ => 0)) by (intros; apply inner_nil_r).
    rewrite T_sum_zeros. destruct p; reflexivity.
  - destruct p as [|pj p].
    + cbn [zip_with T_sum foldr]. apply T_sum_zeros.
    + cbn [map zip_with T_sum foldr].
      fold (T_sum (zip_with (fun pj brow => pj * T_sum (zip_with Rmult brow r))
                     p B)).
      rewrite <- IH.
      rewrite (map_ext _ (fun j => pj * nth j b 0
                                   + T_sum (zip_with Rmult p
                                              (map (fun row => nth j row 0) B)))).
      2:{ intros j. cbn [T_sum foldr]. reflexivity. }
      rewrite (T_sum_linear pj (fun j => nth j b 0)).
      rewrite <- Hb, map_nth_seq_R. rewrite Hb. reflexivity.
Qed.

Lemma score_transpose (p r : vec) (B : mat) sr :
  Forall (fun row : vec => length row = sr) B ->
  T_sum (zip_with Rmult
           (map (fun w => T_sum (zip_with Rmult p w)) (transpose B)) r)
  = bilinear p B r.
Proof.
  intros HB. rewrite transpose_cols.
  destruct (decide (B = [])) as [->|HB0].
  - cbn [width seq map zip_with T_sum foldr].
    unfold bilinear. rewrite zip_with_nil_r. reflexivity.
  - rewrite (width_rect _ sr HB0 HB), map_map.
    apply (score_bilinear sr B r HB).
Qed.

(** X14. For a matrix [B] whose rows all have one length, the prediction
    for a pair is the sigmoid of the bilinear form of its two latent
    vectors: [sum_j p_j * (sum_c B_jc * r_c)], which is how [B] couples
    entry [j] of the protein's latent vector with entry [c] of the
    RNA's. *)
Theorem y_hat_bilinear th fp fr sr :
  Forall (fun row : vec => length row = sr) (B th) ->
  exists p r,
    latent_P th [fp] = [p] /\ latent_R th [fr] = [r]
    /\ y_hat th [fp] [fr] = [sigmoid (bilinear p (B th) r)].
Proof.
  intros HB. eexists _, _. split; [reflexivity|]. split; [reflexivity|].
  unfold y_hat, sum_axis1, mul_elem, T_dot.
  set (pl := latent_P th [fp]). set (rl := latent_R th [fr]).
  cbn [latent_P latent_R map zip_with add_row T_dot] in pl, rl.
  subst pl rl. cbn [map zip_with]. do 2 f_equal.
  apply (score_transpose _ _ _ sr HB).
Qed.

(** ** The further statements on the example model *)


Lemma regularization_zero_iff_witness :
  (0 < count (group_proteins ex_params))%nat
  /\ (0 < count (group_rnas ex_params))%nat
  /\ (0 < count (group_B ex_params))%nat
  /\ 0 <= regularization ex_params
  /\ (regularization ex_params = 0
      <-> Forall (fun x => x = 0) (entries ex_params)).
Proof.
  assert (0 < count (group_proteins ex_params))%nat as H1 by (cbn; lia).
  assert (0 < count (group_rnas ex_params))%nat as H2 by (cbn; lia).
  assert (0 < count (group_B ex_params))%nat as H3 by (cbn; lia).
  pose proof (regularization_zero_iff ex_params H1 H2 H3) as (Hn & Hz & _).
  split; [exact H1|]. split; [exact H2|]. split; [exact H3|].
  split; [exact Hn | exact Hz].
Defined.

Lemma latent_entrywise_witness :
  (0 < 1)%nat /\ (0 < 1)%nat
  /\ Forall (fun r : vec => length r = 1%nat) (Ap ex_params)
  /\ Forall (fun r : vec => length r = 1%nat) (Ar ex_params)
  /\ latent_P ex_params one_Fp
     = map (latent_row (Ap ex_params) (bp ex_params)) one_Fp
  /\ latent_R ex_params one_Fr
     = map (latent_row (Ar ex_params) (br ex_params)) one_Fr.
Proof.
  assert (Forall (fun r : vec => length r = 1%nat) (Ap ex_params)) as H1
    by (repeat constructor).
  assert (Forall (fun r : vec => length r = 1%nat) (Ar ex_params)) as H2
    by (repeat constructor).
  split; [lia|]. split; [lia|]. split; [exact H1|]. split; [exact H2|].
  exact (latent_entrywise ex_params one_Fp one_Fr 1 1 ltac:(lia) ltac:(lia)
           H1 H2).
Defined.

Lemma y_hat_bilinear_witness :
  Forall (fun row : vec => length row = 1%nat) (B ex_params)
  /\ exists p r,
       latent_P ex_params [[-1]] = [p] /\ latent_R ex_params [[-1]] = [r]
       /\ y_hat ex_params [[-1]] [[-1]]
          = [sigmoid (bilinear p (B ex_params) r)].
Proof.
  assert (Forall (fun row : vec => length row = 1%nat) (B ex_params)) as HB
    by (repeat constructor).
  split; [exact HB|].
  exact (y_hat_bilinear ex_params [-1] [-1] 1 HB).
Defined.
